(** * attempt-ts: the attempt runner, the retry runner and the Outcome model

    A shallow embedding of [src/attempt.ts] and [src/index.ts], with the
    parts of the host language they rest on: [String], [instanceof],
    promises and JSON.

    JavaScript values are an inductive type; objects are property lists in
    insertion order (the order [Object.keys] reports), so that key-sets can be
    read off.  Exceptions are completions ([Normal] / [Abrupt]); the side
    effects of the injected dependencies and of the wrapped operation are
    threaded through a small state-and-exception monad whose state records
    how often the operation ran and which dependency was called with what. *)

From Stdlib Require Import List String ZArith Lia Bool DecimalString.
Import ListNotations.
Open Scope string_scope.

Set Implicit Arguments.
Set Warnings "-register-all".

(** ** Completions and values *)

(** The completion of a JavaScript evaluation: a normal result or a thrown
    value. *)
Inductive Completion (E A : Type) : Type :=
| Normal (a : A)
| Abrupt (e : E).

Arguments Normal {E A} a.
Arguments Abrupt {E A} e.

(** The JavaScript values the program handles.
    - [VNum] holds the integer-valued numbers (the safe integers).
    - [VObj] is an ordinary object: own enumerable properties, in insertion
      order, keys pairwise distinct.
    - [VError] is an instance of [Error] (or of a subclass): its [name], its
      [message] (both not enumerable) and its own enumerable properties.
    - [VFun] is a function called without arguments (a method such as
      [toClient] or [toString]): its source text and what a call does.
    - [VPromise] is an instance of the native [Promise] class, given by what
      it was resolved with or rejected with.
    - [VThenable] is an object with a callable [then] that is not an instance
      of [Promise], given by how it settles when awaited. *)
Inductive Value : Type :=
| VUndefined
| VNull
| VBool (b : bool)
| VNum (n : Z)
| VStr (s : string)
| VArr (items : list Value)
| VObj (props : list (string * Value))
| VError (name message : string) (props : list (string * Value))
| VFun (src : string) (call : Completion Value Value)
| VPromise (settle : Completion Value Value)
| VThenable (settle : Completion Value Value).

Definition Props := list (string * Value).

(** Property lookup by key: [o.k], [None] when the key is absent. *)
Fixpoint get (k : string) (ps : Props) : option Value :=
  match ps with
  | [] => None
  | (k', v) :: rest => if String.eqb k k' then Some v else get k rest
  end.

(** [Object.keys]. *)
Definition keys (ps : Props) : list string := map fst ps.

(** The own enumerable properties of a value that is an object. *)
Definition own_props (v : Value) : Props :=
  match v with
  | VObj ps => ps
  | VError _ _ ps => ps
  | _ => []
  end.

(** Reading along a path of keys: [v.k1.k2...]; [None] at a missing key. *)
Fixpoint get_in (path : list string) (v : Value) : option Value :=
  match path with
  | [] => Some v
  | k :: rest =>
      match get k (own_props v) with
      | Some x => get_in rest x
      | None => None
      end
  end.

(** [v instanceof Error]. *)
Definition instanceof_Error (v : Value) : bool :=
  match v with
  | VError _ _ _ => true
  | _ => false
  end.

(** [v instanceof Promise]. *)
Definition instanceof_Promise (v : Value) : bool :=
  match v with
  | VPromise _ => true
  | _ => false
  end.

(** A value with a callable [then]. *)
Definition thenable (v : Value) : bool :=
  match v with
  | VPromise _ | VThenable _ => true
  | _ => false
  end.

(** [new Error(message)]. *)
Definition new_Error (message : string) : Value := VError "Error" message [].

(** [new TypeError(message)], what the engine throws on a bad call or a
    failed conversion. *)
Definition TypeError (message : string) : Value := VError "TypeError" message [].

Definition is_primitive (v : Value) : bool :=
  match v with
  | VUndefined | VNull | VBool _ | VNum _ | VStr _ => true
  | _ => false
  end.

(** ** String conversion: [String(v)] *)

(** [ToString] on a primitive. *)
Definition primitive_to_string (v : Value) : string :=
  match v with
  | VUndefined => "undefined"
  | VNull => "null"
  | VBool true => "true"
  | VBool false => "false"
  | VNum n => NilZero.string_of_int (Z.to_int n)
  | VStr s => s
  | _ => ""
  end.

(** Calling the method found under a key: the inherited method when the key
    is not an own property, [None] when the own property is not callable. *)
Definition call_method (m : option Value) (inherited : Completion Value Value)
  : option (Completion Value Value) :=
  match m with
  | None => Some inherited
  | Some (VFun _ c) => Some c
  | Some _ => None
  end.

(** [OrdinaryToPrimitive] with hint string: [toString] first, then [valueOf];
    a method that is not callable or returns an object is skipped; when
    neither yields a primitive the conversion throws.  [inherited_toString]
    is what the prototype's [toString] returns; the prototype's [valueOf]
    returns the object itself. *)
Definition to_primitive (self : Value) (ps : Props) (inherited_toString : string)
  : Completion Value Value :=
  let cannot := Abrupt (TypeError "Cannot convert object to primitive value") in
  let try_valueOf :=
    match call_method (get "valueOf" ps) (Normal self) with
    | Some (Abrupt e) => Abrupt e
    | Some (Normal r) => if is_primitive r then Normal r else cannot
    | None => cannot
    end in
  match call_method (get "toString" ps) (Normal (VStr inherited_toString)) with
  | Some (Abrupt e) => Abrupt e
  | Some (Normal r) => if is_primitive r then Normal r else try_valueOf
  | None => try_valueOf
  end.

(** [Error.prototype.toString]. *)
Definition error_toString (name message : string) : string :=
  if String.eqb name "" then message
  else if String.eqb message "" then name
  else name ++ ": " ++ message.

(** [String(v)]: total on primitives, and may throw on an object whose
    conversion to a primitive throws. *)
Fixpoint js_String (v : Value) : Completion Value string :=
  match v with
  | VArr items =>
      (fix join (l : list Value) : Completion Value string :=
         let element (x : Value) :=
           match x with
           | VUndefined | VNull => Normal ""
           | _ => js_String x
           end in
         match l with
         | [] => Normal ""
         | [x] => element x
         | x :: rest =>
             match element x with
             | Abrupt e => Abrupt e
             | Normal s =>
                 match join rest with
                 | Abrupt e => Abrupt e
                 | Normal t => Normal (s ++ "," ++ t)
                 end
             end
         end) items
  | VObj ps =>
      match to_primitive v ps "[object Object]" with
      | Normal p => Normal (primitive_to_string p)
      | Abrupt e => Abrupt e
      end
  | VError name message ps =>
      match to_primitive v ps (error_toString name message) with
      | Normal p => Normal (primitive_to_string p)
      | Abrupt e => Abrupt e
      end
  | VFun src _ => Normal src
  | VPromise _ => Normal "[object Promise]"
  | VThenable _ => Normal "[object Object]"
  | _ => Normal (primitive_to_string v)
  end.

(** ** Promises *)

(** What awaiting a value yields: a promise or thenable resolved with [x]
    settles as [x] does, a rejection is kept as it is, any other value is
    its own result. *)
Fixpoint await (v : Value) : Completion Value Value :=
  match v with
  | VPromise c =>
      match c with
      | Normal x => await x
      | Abrupt e => Abrupt e
      end
  | VThenable c =>
      match c with
      | Normal x => await x
      | Abrupt e => Abrupt e
      end
  | _ => Normal v
  end.

(** ** Effects *)

(** [(error: Error) => any], the [errors] option: only forwarded, never
    called by this module. *)
Definition Classifier := Value -> Completion Value Value.

(** The second argument of the normalizer when [errors] is supplied:
    [{ when: errors }]. *)
Record WhenContext := { when : Classifier }.

(** One call of an injected dependency, with its arguments. *)
Inductive Event : Type :=
| EvNormalize (error : Value) (aux : option WhenContext)
| EvLogger (error : Value)
| EvReporter (error : Value).

(** What a run has done so far: the number of invocations of the wrapped
    operation and the dependency calls, oldest first. *)
Record World := { calls : nat; trace : list Event }.

Definition init : World := {| calls := 0; trace := [] |}.

(** Computations with effects on the [World] that may throw. *)
Definition M (A : Type) : Type := World -> Completion Value A * World.

Definition ret {A} (a : A) : M A := fun w => (Normal a, w).

Definition raise {A} (e : Value) : M A := fun w => (Abrupt e, w).

Definition bind {A B} (m : M A) (k : A -> M B) : M B :=
  fun w =>
    match m w with
    | (Normal a, w') => k a w'
    | (Abrupt e, w') => (Abrupt e, w')
    end.

Notation "x <- m ;; k" := (bind m (fun x => k))
  (at level 61, m at next level, right associativity).
Notation "m ;;; k" := (bind m (fun _ => k))
  (at level 61, right associativity).

(** A completion computed without effects. *)
Definition lift {A} (c : Completion Value A) : M A := fun w => (c, w).

(** [try { body } catch (error) { handler }]. *)
Definition try_catch {A} (body : M A) (handler : Value -> M A) : M A :=
  fun w =>
    match body w with
    | (Normal a, w') => (Normal a, w')
    | (Abrupt e, w') => handler e w'
    end.

Definition emit (ev : Event) : M unit :=
  fun w => (Normal tt, {| calls := calls w; trace := trace w ++ [ev] |}).

(** The wrapped operation [fn]: what its invocation does, given how many
    invocations came before (an operation may keep a counter, as the
    repository's retry tests do). *)
Definition Operation := nat -> Completion Value Value.

(** [fn()]. *)
Definition invoke (fn : Operation) : M Value :=
  fun w => (fn (calls w), {| calls := S (calls w); trace := trace w |}).

(** [p.then(onFulfilled)] on a native promise: a new promise, resolved with
    what [onFulfilled] returns, rejected with what it throws or with the
    rejection of [p].  The callback's effects happen when [p] settles. *)
Definition promise_then (p : Value) (onFulfilled : Value -> M Value) : M Value :=
  fun w =>
    match await p with
    | Normal data =>
        let (c, w') := onFulfilled data w in (Normal (VPromise c), w')
    | Abrupt e => (Normal (VPromise (Abrupt e)), w)
    end.

(** [p.catch(onRejected)] on a native promise. *)
Definition promise_catch (p : Value) (onRejected : Value -> M Value) : M Value :=
  fun w =>
    match await p with
    | Normal data => (Normal (VPromise (Normal data)), w)
    | Abrupt e =>
        let (c, w') := onRejected e w in (Normal (VPromise c), w')
    end.

(** ** Dependencies and options *)

(** [Logger | ((error: unknown) => void)]. *)
Inductive LoggerDep : Type :=
| LoggerFunction (f : Value -> Completion Value Value)
| LoggerObject (error : Value -> Completion Value Value).

(** [AttemptDependencies<TNormalized>]. *)
Record AttemptDependencies := {
  normalizeError : Value -> option WhenContext -> Completion Value Value;
  logger : option LoggerDep;
  reporter : option (Value -> Completion Value Value)
}.

(** [TryOptions]; [None] is an omitted key. *)
Record TryOptions := {
  report : option bool;
  client : option bool;
  errors : option Classifier
}.

(** [{}], the default [options]. *)
Definition no_options : TryOptions :=
  {| report := None; client := None; errors := None |}.

(** A cancellation signal: given the number of attempts the retry call has
    made so far, the abort reason when the signal is aborted by then. *)
Definition AbortSignal := nat -> option Value.

(** [PRetryOptions], the [retry] bag: the abort predicate [shouldRetry], the
    cancellation [signal], and the keys of [WrapOptions].  [WrapOptions] is
    declared by the typings of the [retry] package, outside the repository;
    of its keys the bag keeps the retry count [retries], the maximum-retries
    count of the collaborator's contract.  The delay parameters and the
    [onFailedAttempt] callback only shape timing and caller-side effects and
    are left out. *)
Record PRetryOptions := {
  bag_retries : option nat;
  shouldRetry : option (Value -> bool);
  signal : option AbortSignal
}.

(** [TryWithRetryOptions]: [TryOptions] extended with [tries], a retry
    count, and the [retry] bag. *)
Record TryWithRetryOptions := {
  tries : option nat;
  retry : option PRetryOptions;
  try_options : TryOptions
}.

Definition no_retry_options : TryWithRetryOptions :=
  {| tries := None; retry := None; try_options := no_options |}.

(** A destructuring default: [const { k = d } = options]. *)
Definition default {A} (d : A) (o : option A) : A :=
  match o with
  | Some a => a
  | None => d
  end.

(** ** The retry collaborator *)

(** The configuration [pRetry] receives: [{ retries, ...retryOptions }]. *)
Record RetryConfig := {
  retries : nat;
  cfg_shouldRetry : option (Value -> bool);
  cfg_signal : option AbortSignal
}.

(** [{ retries, ...retryOptions }]: the keys of the bag are spread after
    [retries], so a [retries] key of the bag replaces the one computed from
    [tries]; an omitted bag spreads nothing. *)
Definition spread_retry_options (n : nat) (retryOptions : option PRetryOptions)
  : RetryConfig :=
  match retryOptions with
  | None => {| retries := n; cfg_shouldRetry := None; cfg_signal := None |}
  | Some bag =>
      {| retries := default n (bag_retries bag);
         cfg_shouldRetry := shouldRetry bag;
         cfg_signal := signal bag |}
  end.

(** An [async] function: its call returns a promise settled by what the body
    returns or throws. *)
Definition async (body : M Value) : M Value :=
  fun w => let (c, w') := body w in (Normal (VPromise c), w').

(** Modelled from the spec: the external retry collaborator ([pRetry] of the
    p-retry package), which the repository imports and does not define.
    Per the spec it runs the operation sequentially, at most [retries] times
    after the first attempt; an attempt that raises or rejects is retried
    while retries remain, unless the abort predicate refuses or the
    cancellation signal is aborted; the first success is the result and the
    last failure (or the abort reason) is the rejection.
    [made] counts the attempts of this call, [left] the retries left. *)
Fixpoint pRetry_attempts (fn : Operation) (cfg : RetryConfig) (made left : nat)
  : M Value :=
  match match cfg_signal cfg with Some s => s made | None => None end with
  | Some reason => raise reason
  | None =>
      try_catch
        (result <- invoke fn ;; lift (await result))
        (fun error =>
           match left with
           | O => raise error
           | S left' =>
               if default (fun _ => true) (cfg_shouldRetry cfg) error
               then pRetry_attempts fn cfg (S made) left'
               else raise error
           end)
  end.

(** Modelled from the spec: [pRetry(fn, options)], the deferred handle of the
    retry collaborator. *)
Definition pRetry (fn : Operation) (cfg : RetryConfig) : M Value :=
  async (pRetry_attempts fn cfg 0 (retries cfg)).

(** ** [createAttempt(deps)] *)

(** [(normalized as any).toClient()]: reading the property of [undefined] or
    [null] throws, and so does calling what is not a function. *)
Definition call_toClient (normalized : Value) : Completion Value Value :=
  match normalized with
  | VUndefined | VNull =>
      Abrupt (TypeError "Cannot read properties of undefined (reading 'toClient')")
  | _ =>
      match get "toClient" (own_props normalized) with
      | Some (VFun _ c) => c
      | _ => Abrupt (TypeError "normalized.toClient is not a function")
      end
  end.

Section createAttempt.

Variable deps : AttemptDependencies.

(** [Attempt.ok(data)]. *)
Definition Attempt_ok (data : Value) : Value :=
  VObj [("ok", VBool true); ("error", VUndefined); ("data", data)].

(** [Attempt.error(errorInfo)]. *)
Definition Attempt_error (errorInfo : Value) : Value :=
  VObj [("ok", VBool false); ("error", errorInfo); ("data", VUndefined)].

(** A dependency call: recorded, its return value ignored. *)
Definition call_dep (ev : Event) (c : Completion Value Value) : M unit :=
  emit ev ;;; (_ <- lift c ;; ret tt).

(** [Attempt.handleError(error, options)]. *)
Definition handleError (error : Value) (options : TryOptions) : M Value :=
  let shouldReport := default true (report options) in
  let client := default false (client options) in
  let errors := errors options in
  let aux :=
    match errors with
    | Some f => Some {| when := f |}
    | None => None
    end in
  normalized <- (emit (EvNormalize error aux) ;;;
                 lift (normalizeError deps error aux)) ;;
  (if shouldReport then
     match logger deps with
     | Some (LoggerFunction f) => call_dep (EvLogger error) (f error)
     | Some (LoggerObject m) => call_dep (EvLogger error) (m error)
     | None => ret tt
     end ;;;
     match reporter deps with
     | Some r => call_dep (EvReporter error) (r error)
     | None => ret tt
     end
   else ret tt) ;;;
  if client then
    clientError <- lift (call_toClient normalized) ;;
    let clientErrorInfo := VObj [("client", clientError)] in
    ret (Attempt_error clientErrorInfo)
  else
    originalError <- (if instanceof_Error error then ret error
                      else s <- lift (js_String error) ;; ret (new_Error s)) ;;
    let errorInfo := VObj [("error", originalError); ("normalized", normalized)] in
    ret (Attempt_error errorInfo).

(** [Attempt.try(fn, options)]. *)
Definition Attempt_try (fn : Operation) (options : TryOptions) : M Value :=
  try_catch
    (result <- invoke fn ;;
     if instanceof_Promise result then
       p <- promise_then result (fun data => ret (Attempt_ok data)) ;;
       promise_catch p (fun error => handleError error options)
     else ret (Attempt_ok result))
    (fun error => handleError error options).

(** [Attempt.retry(fn, options)]. *)
Definition Attempt_retry (fn : Operation) (options : TryWithRetryOptions)
  : M Value :=
  let retries := default 3 (tries options) in
  let retryOptions := retry options in
  let tryOptions := try_options options in
  r <- pRetry fn (spread_retry_options retries retryOptions) ;;
  p <- promise_then r (fun data => ret (Attempt_ok data)) ;;
  promise_catch p (fun error => handleError error tryOptions).

End createAttempt.

(** ** [src/index.ts]: the default instance *)

(** [defaultNormalizer]. *)
Definition defaultNormalizer (error : Value) (_ : option WhenContext)
  : Completion Value Value :=
  match (match error with
         | VError _ message _ => Normal message
         | _ => js_String error
         end) with
  | Abrupt e => Abrupt e
  | Normal message =>
      let userMessage := "An error occurred" in
      let code := "UNKNOWN_ERROR" in
      let fields :=
        [("message", VStr message); ("code", VStr code);
         ("userMessage", VStr userMessage)] in
      Normal (VObj (fields ++
                    [("toClient",
                      VFun "() => ({ message, code, userMessage })"
                        (Normal (VObj fields)))]))
  end.

(** [console], whose [error] method prints and returns [undefined]. *)
Definition console : LoggerDep := LoggerObject (fun _ => Normal VUndefined).

(** [attempt = createAttempt({ normalizeError: defaultNormalizer, logger: console })]. *)
Definition attempt : AttemptDependencies :=
  {| normalizeError := defaultNormalizer;
     logger := Some console;
     reporter := None |}.

(** An instance whose normalizer returns an object without [toClient], and
    that has neither logger nor reporter. *)
Definition bare_attempt : AttemptDependencies :=
  {| normalizeError := fun _ _ => Normal (VObj [("message", VStr "normalized")]);
     logger := None;
     reporter := None |}.

(** An instance whose normalizer never raises and always returns the same
    normalized error, with a [toClient] projection; no logger, no reporter. *)
Definition careful_attempt : AttemptDependencies :=
  {| normalizeError := fun _ _ =>
       Normal (VObj [("code", VStr "UNKNOWN_ERROR");
                     ("toClient",
                      VFun "() => ({ code })"
                        (Normal (VObj [("code", VStr "UNKNOWN_ERROR")])))]);
     logger := None;
     reporter := None |}.

(** As [careful_attempt], with a function logger and a reporter. *)
Definition loud_attempt : AttemptDependencies :=
  {| normalizeError := normalizeError careful_attempt;
     logger := Some (LoggerFunction (fun _ => Normal VUndefined));
     reporter := Some (fun _ => Normal VUndefined) |}.

(** An object whose own [toString] throws: [{ toString() { throw ... } }]. *)
Definition unprintable : Value :=
  VObj [("toString",
         VFun "() => { throw 'no string form' }" (Abrupt (VStr "no string form")))].

(** ** Operations used in examples *)

(** An operation that returns [v] at every invocation. *)
Definition returns (v : Value) : Operation := fun _ => Normal v.

(** An operation that throws [e] at every invocation. *)
Definition throws (e : Value) : Operation := fun _ => Abrupt e.

(** What a run returned, and the world it left. *)
Definition result_of {A} (r : Completion Value A * World) : Completion Value A := fst r.
Definition world_of {A} (r : Completion Value A * World) : World := snd r.

(** ** JSON, the structured interchange format *)

(** A JSON document. *)
Inductive Json : Type :=
| JNull
| JBool (b : bool)
| JNum (n : Z)
| JStr (s : string)
| JArr (items : list Json)
| JObj (members : list (string * Json)).

(** [SerializeJSONProperty] of [JSON.stringify], without replacer: with
    [hook] the [toJSON] method of an object is called first and its result
    serialized in the object's place; [undefined] and functions have no
    serialization ([None]): they are left out of an object and become
    [null] in an array; an object is serialized by its own enumerable
    properties.  A throwing [toJSON] makes the serialization throw. *)
Fixpoint serialize (hook : bool) (v : Value) {struct v}
  : Completion Value (option Json) :=
  let members :=
    fix members (ps : Props) : Completion Value (list (string * Json)) :=
      match ps with
      | [] => Normal []
      | (k, x) :: rest =>
          match serialize true x with
          | Abrupt e => Abrupt e
          | Normal j =>
              match members rest with
              | Abrupt e => Abrupt e
              | Normal ms =>
                  Normal match j with
                         | Some j' => (k, j') :: ms
                         | None => ms
                         end
              end
          end
      end in
  let object (ps : Props) : Completion Value (option Json) :=
    match members ps with
    | Abrupt e => Abrupt e
    | Normal ms => Normal (Some (JObj ms))
    end in
  let elements :=
    fix elements (l : list Value) : Completion Value (list Json) :=
      match l with
      | [] => Normal []
      | x :: rest =>
          match serialize true x with
          | Abrupt e => Abrupt e
          | Normal j =>
              match elements rest with
              | Abrupt e => Abrupt e
              | Normal js => Normal (default JNull j :: js)
              end
          end
      end in
  let plain : Completion Value (option Json) :=
    match v with
    | VUndefined => Normal None
    | VNull => Normal (Some JNull)
    | VBool b => Normal (Some (JBool b))
    | VNum n => Normal (Some (JNum n))
    | VStr s => Normal (Some (JStr s))
    | VArr items =>
        match elements items with
        | Abrupt e => Abrupt e
        | Normal js => Normal (Some (JArr js))
        end
    | VObj ps => object ps
    | VError _ _ ps => object ps
    | VFun _ _ => Normal None
    | VPromise _ => Normal (Some (JObj []))
    | VThenable _ => Normal (Some (JObj []))
    end in
  let with_toJSON (ps : Props) : Completion Value (option Json) :=
    (fix find (l : Props) : Completion Value (option Json) :=
       match l with
       | [] => plain
       | (k, x) :: rest =>
           if String.eqb "toJSON" k then
             match x with
             | VFun _ c =>
                 match c with
                 | Normal y => serialize false y
                 | Abrupt e => Abrupt e
                 end
             | _ => plain
             end
           else find rest
       end) ps in
  if hook then
    match v with
    | VObj ps => with_toJSON ps
    | VError _ _ ps => with_toJSON ps
    | _ => plain
    end
  else plain.

(** The members [serialize] writes for the properties of an object. *)
Fixpoint serialize_members (ps : Props) : Completion Value (list (string * Json)) :=
  match ps with
  | [] => Normal []
  | (k, x) :: rest =>
      match serialize true x with
      | Abrupt e => Abrupt e
      | Normal j =>
          match serialize_members rest with
          | Abrupt e => Abrupt e
          | Normal ms =>
              Normal match j with
                     | Some j' => (k, j') :: ms
                     | None => ms
                     end
          end
      end
  end.

(** The elements [serialize] writes for the items of an array. *)
Fixpoint serialize_elements (l : list Value) : Completion Value (list Json) :=
  match l with
  | [] => Normal []
  | x :: rest =>
      match serialize true x with
      | Abrupt e => Abrupt e
      | Normal j =>
          match serialize_elements rest with
          | Abrupt e => Abrupt e
          | Normal js => Normal (default JNull j :: js)
          end
      end
  end.

(** [JSON.stringify(v)], as the document it writes. *)
Definition JSON_stringify (v : Value) : Completion Value (option Json) :=
  serialize true v.

(** [JSON.parse] of a document, without reviver. *)
Fixpoint JSON_parse (j : Json) : Value :=
  match j with
  | JNull => VNull
  | JBool b => VBool b
  | JNum n => VNum n
  | JStr s => VStr s
  | JArr items => VArr (map JSON_parse items)
  | JObj ms =>
      VObj ((fix members (l : list (string * Json)) : Props :=
               match l with
               | [] => []
               | (k, x) :: rest => (k, JSON_parse x) :: members rest
               end) ms)
  end.

(** The properties [JSON_parse] builds for the members of an object. *)
Definition parse_members (ms : list (string * Json)) : Props :=
  map (fun kv => (fst kv, JSON_parse (snd kv))) ms.

(** [JSON.parse(JSON.stringify(v))]; [None] when [v] has no serialization. *)
Definition JSON_roundtrip (v : Value) : Completion Value (option Value) :=
  match JSON_stringify v with
  | Abrupt e => Abrupt e
  | Normal None => Normal None
  | Normal (Some j) => Normal (Some (JSON_parse j))
  end.

(** Plain JSON data: [null], booleans, numbers, strings, and arrays and
    ordinary objects of plain data. *)
Fixpoint json_plain (v : Value) : bool :=
  match v with
  | VNull | VBool _ | VNum _ | VStr _ => true
  | VArr items => forallb json_plain items
  | VObj ps =>
      (fix all (l : Props) : bool :=
         match l with
         | [] => true
         | (_, x) :: rest => json_plain x && all rest
         end) ps
  | _ => false
  end.

Definition json_plain_props (ps : Props) : bool :=
  forallb (fun kv => json_plain (snd kv)) ps.

(** ** Vocabulary of the statements *)

Definition completes {A} (c : Completion Value A) : bool :=
  match c with
  | Normal _ => true
  | Abrupt _ => false
  end.

(** The logger, when there is one, returns normally on [e]. *)
Definition logger_completes (deps : AttemptDependencies) (e : Value) : bool :=
  match logger deps with
  | Some (LoggerFunction f) => completes (f e)
  | Some (LoggerObject m) => completes (m e)
  | None => true
  end.

(** The reporter, when there is one, returns normally on [e]. *)
Definition reporter_completes (deps : AttemptDependencies) (e : Value) : bool :=
  match reporter deps with
  | Some r => completes (r e)
  | None => true
  end.

(** The value has an own [toClient] property that is a function. *)
Definition callable_toClient (n : Value) : bool :=
  match get "toClient" (own_props n) with
  | Some (VFun _ _) => true
  | _ => false
  end.

(** The normalizer, the logger and the reporter never raise. *)
Definition deps_never_raise (deps : AttemptDependencies) : Prop :=
  (forall e aux, completes (normalizeError deps e aux) = true) /\
  (forall e, logger_completes deps e = true) /\
  (forall e, reporter_completes deps e = true).

(** The world after one more invocation of the operation. *)
Definition advance (w : World) : World :=
  {| calls := S (calls w); trace := trace w |}.

(** What one awaited invocation of [fn] yields when [k] invocations came
    before: its result, or the value it threw or rejected with. *)
Definition attempt_result (fn : Operation) (k : nat) : Completion Value Value :=
  match fn k with
  | Normal v => await v
  | Abrupt e => Abrupt e
  end.

(** The failure [Attempt.try] catches, if any: a synchronous throw, or the
    rejection of a returned native promise. *)
Definition caught_by_try (fn : Operation) (w : World) : option Value :=
  match fn (calls w) with
  | Abrupt e => Some e
  | Normal v =>
      if instanceof_Promise v then
        match await v with
        | Abrupt e => Some e
        | Normal _ => None
        end
      else None
  end.

(** Whether [Attempt.try] answers with a promise: the operation returned a
    native promise. *)
Definition try_defers (fn : Operation) (w : World) : bool :=
  match fn (calls w) with
  | Normal v => instanceof_Promise v
  | Abrupt _ => false
  end.

(** The failure the retry collaborator surfaces to [Attempt.retry], if any. *)
Definition caught_by_retry (fn : Operation) (options : TryWithRetryOptions)
  (w : World) : option Value :=
  let cfg := spread_retry_options (default 3 (tries options)) (retry options) in
  match pRetry_attempts fn cfg 0 (retries cfg) w with
  | (Abrupt e, _) => Some e
  | (Normal _, _) => None
  end.

Definition is_success (o : Value) : Prop := exists data, o = Attempt_ok data.
Definition is_failure (o : Value) : Prop := exists payload, o = Attempt_error payload.
Definition is_outcome (o : Value) : Prop := is_success o \/ is_failure o.

(** The Outcomes built by [ok], [error], [try] and [retry]: returned
    directly, or what the returned promise resolves to. *)
Inductive Built : Value -> Prop :=
| built_ok data : Built (Attempt_ok data)
| built_error errorInfo : Built (Attempt_error errorInfo)
| built_try deps fn options w o :
    result_of (Attempt_try deps fn options w) = Normal o ->
    instanceof_Promise o = false ->
    Built o
| built_try_deferred deps fn options w o :
    result_of (Attempt_try deps fn options w) = Normal (VPromise (Normal o)) ->
    Built o
| built_retry deps fn options w o :
    result_of (Attempt_retry deps fn options w) = Normal (VPromise (Normal o)) ->
    Built o.

(** The auxiliary context the normalizer receives for the given options. *)
Definition aux_of (options : TryOptions) : option WhenContext :=
  match errors options with
  | Some f => Some {| when := f |}
  | None => None
  end.

(** The retry bag carries no [retries] count of its own. *)
Definition no_retries_key (options : TryWithRetryOptions) : Prop :=
  match retry options with
  | Some bag => bag_retries bag = None
  | None => True
  end.

(** The retry bag carries neither an abort predicate nor a cancellation
    signal. *)
Definition no_early_stop (options : TryWithRetryOptions) : Prop :=
  match retry options with
  | Some bag => shouldRetry bag = None /\ signal bag = None
  | None => True
  end.

(** The retry bag carries no cancellation signal. *)
Definition no_signal (options : TryWithRetryOptions) : Prop :=
  match retry options with
  | Some bag => signal bag = None
  | None => True
  end.

(** The dependency calls the reporting step makes for [e]. *)
Definition reported (deps : AttemptDependencies) (options : TryOptions)
  (e : Value) : list Event :=
  if default true (report options) then
    match logger deps with Some _ => [EvLogger e] | None => [] end ++
    match reporter deps with Some _ => [EvReporter e] | None => [] end
  else [].

(** The reporting step, when it runs, returns normally on [e]. *)
Definition reports_quietly (deps : AttemptDependencies) (options : TryOptions)
  (e : Value) : bool :=
  if default true (report options)
  then logger_completes deps e && reporter_completes deps e
  else true.

Definition with_trace (w : World) (evs : list Event) : World :=
  {| calls := calls w; trace := trace w ++ evs |}.

(** The raw-cause field: [error instanceof Error ? error : new Error(String(error))]. *)
Definition original_error (e : Value) : Completion Value Value :=
  if instanceof_Error e then Normal e
  else match js_String e with
       | Normal s => Normal (new_Error s)
       | Abrupt x => Abrupt x
       end.

(** The last step of [handleError] returns normally on [e]: with
    [client: true] the projection [toClient()] of the normalized error,
    otherwise the coercion of [e] to an [Error]. *)
Definition payload_completes (deps : AttemptDependencies) (options : TryOptions)
  (e : Value) : bool :=
  match normalizeError deps e (aux_of options) with
  | Normal n =>
      if default false (client options) then completes (call_toClient n)
      else completes (original_error e)
  | Abrupt _ => true
  end.

(** The world [handleError] leaves when the normalizer and reporting return:
    the normalizer call, then the reporting calls. *)
Definition handled (w : World) (deps : AttemptDependencies)
  (options : TryOptions) (e : Value) : World :=
  with_trace w (EvNormalize e (aux_of options) :: reported deps options e).

(** The configuration [Attempt.retry] passes to the collaborator. *)
Definition retry_config (options : TryWithRetryOptions) : RetryConfig :=
  spread_retry_options (default 3 (tries options)) (retry options).

(** A value returned by a runner: an Outcome, or a promise that, when it
    resolves, resolves to an Outcome. *)
Definition outcome_or_deferred (v : Value) : Prop :=
  is_outcome v \/
  exists c, v = VPromise c /\ forall o, c = Normal o -> is_outcome o.

(** Computations that do not invoke the operation. *)
Definition keeps_calls {A} (m : M A) : Prop :=
  forall w, calls (world_of (m w)) = calls w.

(** What the logger call yields on [e], when there is a logger. *)
Definition logger_call (deps : AttemptDependencies) (e : Value)
  : option (Completion Value Value) :=
  match logger deps with
  | Some (LoggerFunction f) => Some (f e)
  | Some (LoggerObject m) => Some (m e)
  | None => None
  end.

(** The dependency calls made for the logger on [e]. *)
Definition logger_events (deps : AttemptDependencies) (e : Value) : list Event :=
  match logger deps with
  | Some _ => [EvLogger e]
  | None => []
  end.

(** The same options with [report: false]. *)
Definition silenced (options : TryOptions) : TryOptions :=
  {| report := Some false; client := client options; errors := errors options |}.

(** Computations whose result does not depend on the world they start in. *)
Definition world_blind {A} (m : M A) : Prop :=
  forall w1 w2, result_of (m w1) = result_of (m w2).

(** [error.message] of an [Error] instance. *)
Definition error_message (v : Value) : option string :=
  match v with
  | VError _ message _ => Some message
  | _ => None
  end.

(** The failure payload of an Outcome: its [error] field. *)
Definition payload_of (o : Value) : option Value := get "error" (own_props o).

(** The client projection [defaultNormalizer] prepares for the message [m]:
    [{ message, code, userMessage }]. *)
Definition SimpleClientError (m : string) : Value :=
  VObj [("message", VStr m); ("code", VStr "UNKNOWN_ERROR");
        ("userMessage", VStr "An error occurred")].

(** The [SimpleError] [defaultNormalizer] builds for the message [m]: the
    three fields and the [toClient] method. *)
Definition SimpleError (m : string) : Value :=
  VObj [("message", VStr m); ("code", VStr "UNKNOWN_ERROR");
        ("userMessage", VStr "An error occurred");
        ("toClient",
         VFun "() => ({ message, code, userMessage })"
           (Normal (SimpleClientError m)))].

(** The value is an [Error] instance or [String] of it returns. *)
Definition printable (e : Value) : bool :=
  instanceof_Error e || completes (js_String e).

(** The parts of a value: the value itself and, in turn, the parts of its
    items, of its properties' values, of what a function returns or throws
    and of what a promise or thenable is settled with. *)
Inductive part_of (x : Value) : Value -> Prop :=
| part_self : part_of x x
| part_item items y : In y items -> part_of x y -> part_of x (VArr items)
| part_prop ps k y : In (k, y) ps -> part_of x y -> part_of x (VObj ps)
| part_error_prop name message ps k y :
    In (k, y) ps -> part_of x y -> part_of x (VError name message ps)
| part_returned src y : part_of x y -> part_of x (VFun src (Normal y))
| part_thrown src y : part_of x y -> part_of x (VFun src (Abrupt y))
| part_resolved y : part_of x y -> part_of x (VPromise (Normal y))
| part_rejected y : part_of x y -> part_of x (VPromise (Abrupt y))
| part_thenable_resolved y : part_of x y -> part_of x (VThenable (Normal y))
| part_thenable_rejected y : part_of x y -> part_of x (VThenable (Abrupt y)).

(** An instance whose normalizer never raises and whose normalized error
    projects to the caught value itself: [{ toClient: () => error }]. *)
Definition echo_attempt : AttemptDependencies :=
  {| normalizeError := fun error _ =>
       Normal (VObj [("toClient", VFun "() => error" (Normal error))]);
     logger := None;
     reporter := None |}.

(** The dependency calls [handleError] makes for [e], in order: the
    normalizer; then, when it returned and [report] is not false, the
    logger (if any) and, unless the logger raised, the reporter (if any). *)
Definition handler_events (deps : AttemptDependencies) (options : TryOptions)
  (e : Value) : list Event :=
  EvNormalize e (aux_of options) ::
  match normalizeError deps e (aux_of options) with
  | Abrupt _ => []
  | Normal _ =>
      match report options with
      | Some false => []
      | _ =>
          match logger_call deps e with
          | None => match reporter deps with Some _ => [EvReporter e] | None => [] end
          | Some (Normal _) =>
              EvLogger e ::
              match reporter deps with Some _ => [EvReporter e] | None => [] end
          | Some (Abrupt _) => [EvLogger e]
          end
      end
  end.

(** ** Induction on values *)

Section Value_data_induction.

Variable P : Value -> Prop.
Hypothesis Hundefined : P VUndefined.
Hypothesis Hnull : P VNull.
Hypothesis Hbool : forall b, P (VBool b).
Hypothesis Hnum : forall n, P (VNum n).
Hypothesis Hstr : forall s, P (VStr s).
Hypothesis Harr : forall items, Forall P items -> P (VArr items).
Hypothesis Hobj : forall ps, Forall (fun kv => P (snd kv)) ps -> P (VObj ps).
Hypothesis Herror :
  forall name message ps,
    Forall (fun kv => P (snd kv)) ps -> P (VError name message ps).
Hypothesis Hfun : forall src c, P (VFun src c).
Hypothesis Hpromise : forall c, P (VPromise c).
Hypothesis Hthenable : forall c, P (VThenable c).

(** Induction on a value through its items and properties. *)
Fixpoint Value_data_ind (v : Value) : P v :=
  let props :=
    fix props (ps : Props) : Forall (fun kv => P (snd kv)) ps :=
      match ps with
      | [] => Forall_nil _
      | (k, x) :: rest =>
          @Forall_cons _ (fun kv => P (snd kv)) (k, x) rest
            (Value_data_ind x) (props rest)
      end in
  match v with
  | VUndefined => Hundefined
  | VNull => Hnull
  | VBool b => Hbool b
  | VNum n => Hnum n
  | VStr s => Hstr s
  | VArr items =>
      Harr ((fix all (l : list Value) : Forall P l :=
               match l with
               | [] => Forall_nil _
               | x :: rest => Forall_cons x (Value_data_ind x) (all rest)
               end) items)
  | VObj ps => Hobj (props ps)
  | VError name message ps => Herror name message (props ps)
  | VFun src c => Hfun src c
  | VPromise c => Hpromise c
  | VThenable c => Hthenable c
  end.

End Value_data_induction.

(** ** Proof automation *)

Ltac break_match_hyp H :=
  match type of H with
  | context [match ?x with _ => _ end] => destruct x eqn:?
  | context [if ?x then _ else _] => destruct x eqn:?
  end.

(** ** Basic facts *)

Lemma await_not_promise (v d : Value) :
  await v = Normal d -> thenable d = false.
Proof.
  revert v d. fix IH 1. intros v d.
  destruct v as [| | b | n | s | items | ps | nm msg ps | src c | c | c];
    simpl; try (intros H; inversion H; subst; reflexivity).
  - destruct c as [x | e]; [apply IH | discriminate].
  - destruct c as [x | e]; [apply IH | discriminate].
Qed.

Lemma await_plain (v : Value) : thenable v = false -> await v = Normal v.
Proof. destruct v; simpl; congruence. Qed.

Section try_paths.

Variable deps : AttemptDependencies.
Variable fn : Operation.
Variable options : TryOptions.
Variable w : World.

Lemma try_sync_throw (e : Value) :
  fn (calls w) = Abrupt e ->
  Attempt_try deps fn options w = handleError deps e options (advance w).
Proof.
  intros H. unfold Attempt_try, try_catch, bind, invoke. rewrite H. reflexivity.
Qed.

Lemma try_sync_return (v : Value) :
  fn (calls w) = Normal v -> instanceof_Promise v = false ->
  Attempt_try deps fn options w = (Normal (Attempt_ok v), advance w).
Proof.
  intros H Hp. unfold Attempt_try, try_catch, bind, invoke. rewrite H, Hp.
  reflexivity.
Qed.

Lemma try_async_fulfilled (v data : Value) :
  fn (calls w) = Normal v -> instanceof_Promise v = true ->
  await v = Normal data ->
  Attempt_try deps fn options w
  = (Normal (VPromise (Normal (Attempt_ok data))), advance w).
Proof.
  intros H Hp Ha. unfold Attempt_try, try_catch, bind, invoke. rewrite H, Hp.
  unfold promise_then, promise_catch. rewrite Ha. reflexivity.
Qed.

Lemma try_async_rejected (v e : Value) :
  fn (calls w) = Normal v -> instanceof_Promise v = true ->
  await v = Abrupt e ->
  Attempt_try deps fn options w = async (handleError deps e options) (advance w).
Proof.
  intros H Hp Ha. unfold Attempt_try, try_catch, bind, invoke. rewrite H, Hp.
  unfold promise_then, promise_catch. rewrite Ha. simpl. unfold async.
  destruct (handleError deps e options _) as [c w']. reflexivity.
Qed.

End try_paths.

Section handleError_paths.

Variable deps : AttemptDependencies.
Variable e : Value.
Variable options : TryOptions.
Variable w : World.
Variable n : Value.
Hypothesis Hnorm : normalizeError deps e (aux_of options) = Normal n.
Hypothesis Hquiet : reports_quietly deps options e = true.

Lemma handleError_reporting :
  exists k : Value -> M Value,
    handleError deps e options w = k n (handled w deps options e) /\
    k = (fun normalized =>
           if default false (client options) then
             clientError <- lift (call_toClient normalized) ;;
             ret (Attempt_error (VObj [("client", clientError)]))
           else
             originalError <- (if instanceof_Error e then ret e
                               else s <- lift (js_String e) ;; ret (new_Error s)) ;;
             ret (Attempt_error
                    (VObj [("error", originalError); ("normalized", normalized)]))).
Proof.
  eexists. split; [| reflexivity].
  unfold handleError, handled, with_trace, reported, reports_quietly in *.
  fold (aux_of options).
  unfold bind at 1. unfold bind at 1. unfold emit at 1. unfold lift at 1.
  rewrite Hnorm. cbn [calls trace].
  unfold bind at 1.
  destruct (default true (report options)).
  - apply andb_prop in Hquiet. destruct Hquiet as [Hl Hr].
    unfold logger_completes, reporter_completes in *.
    unfold bind at 1.
    destruct (logger deps) as [[f | m] |];
      destruct (reporter deps) as [r |];
      unfold call_dep, bind, emit, lift, ret; cbn [calls trace];
      repeat match goal with
             | H : completes ?c = true |- context [?c] =>
                 destruct c; [| discriminate H]
             end;
      cbn [calls trace]; rewrite <- ?app_assoc; cbn [app]; reflexivity.
  - unfold ret at 1. cbn [app]. reflexivity.
Qed.

Lemma handleError_client :
  default false (client options) = true ->
  handleError deps e options w
  = (match call_toClient n with
     | Normal c => Normal (Attempt_error (VObj [("client", c)]))
     | Abrupt x => Abrupt x
     end, handled w deps options e).
Proof.
  intros Hc. destruct handleError_reporting as [k [-> ->]]. rewrite Hc.
  unfold bind, lift, ret. destruct (call_toClient n); reflexivity.
Qed.

Lemma handleError_internal :
  default false (client options) = false ->
  handleError deps e options w
  = (match original_error e with
     | Normal E => Normal (Attempt_error (VObj [("error", E); ("normalized", n)]))
     | Abrupt x => Abrupt x
     end, handled w deps options e).
Proof.
  intros Hc. destruct handleError_reporting as [k [-> ->]]. rewrite Hc.
  unfold original_error, bind, lift, ret.
  destruct (instanceof_Error e); [reflexivity |].
  destruct (js_String e); reflexivity.
Qed.

End handleError_paths.

Section retry_paths.

Variable fn : Operation.
Variable cfg : RetryConfig.

Lemma pRetry_attempts_step (made left : nat) (w : World) :
  pRetry_attempts fn cfg made left w
  = match match cfg_signal cfg with Some s => s made | None => None end with
    | Some reason => (Abrupt reason, w)
    | None =>
        match attempt_result fn (calls w) with
        | Normal data => (Normal data, advance w)
        | Abrupt e =>
            match left with
            | O => (Abrupt e, advance w)
            | S left' =>
                if default (fun _ => true) (cfg_shouldRetry cfg) e
                then pRetry_attempts fn cfg (S made) left' (advance w)
                else (Abrupt e, advance w)
            end
        end
    end.
Proof.
  destruct left; simpl;
    (destruct (match cfg_signal cfg with Some s => s made | None => None end);
     [reflexivity |]);
    unfold try_catch, bind, invoke, lift, attempt_result, advance, raise;
    (destruct (fn (calls w)) as [v | e]; [destruct (await v) as [d | e] |]);
    try reflexivity;
    destruct (default (fun _ => true) (cfg_shouldRetry cfg) e); reflexivity.
Qed.

Lemma pRetry_attempts_world (left made : nat) (w : World) :
  trace (world_of (pRetry_attempts fn cfg made left w)) = trace w /\
  calls w <= calls (world_of (pRetry_attempts fn cfg made left w))
          <= calls w + left + 1.
Proof.
  revert made w. induction left as [| left IH]; intros made w;
    rewrite pRetry_attempts_step;
    destruct (match cfg_signal cfg with Some s => s made | None => None end);
    try (simpl; split; [reflexivity | lia]);
    destruct (attempt_result fn (calls w));
    try (simpl; split; [reflexivity | lia]).
  destruct (default (fun _ => true) (cfg_shouldRetry cfg) e);
    [| simpl; split; [reflexivity | lia]].
  destruct (IH (S made) (advance w)) as [Ht Hc]. simpl in Ht, Hc.
  split; [exact Ht | lia].
Qed.


Lemma pRetry_attempts_plain (left made : nat) (w w' : World) (d : Value) :
  pRetry_attempts fn cfg made left w = (Normal d, w') -> thenable d = false.
Proof.
  revert made w. induction left as [| left IH]; intros made w;
    rewrite pRetry_attempts_step;
    destruct (match cfg_signal cfg with Some s => s made | None => None end);
    try discriminate;
    destruct (attempt_result fn (calls w)) eqn:Hr; try discriminate;
    try (intros H; inversion H; subst; unfold attempt_result in Hr;
         destruct (fn (calls w)); [eapply await_not_promise; eassumption
                                  | discriminate]).
  destruct (default (fun _ => true) (cfg_shouldRetry cfg) e);
    [apply IH | discriminate].
Qed.


End retry_paths.

Section retry_runner.

Variable deps : AttemptDependencies.
Variable fn : Operation.
Variable options : TryWithRetryOptions.
Variable w : World.

Lemma retry_fulfilled (data : Value) (w1 : World) :
  pRetry_attempts fn (retry_config options) 0
    (retries (retry_config options)) w = (Normal data, w1) ->
  Attempt_retry deps fn options w
  = (Normal (VPromise (Normal (Attempt_ok data))), w1).
Proof.
  intros H. pose proof (pRetry_attempts_plain _ _ _ _ _ H) as Hd.
  unfold Attempt_retry, bind, pRetry, async.
  fold (retry_config options). rewrite H.
  unfold promise_then, promise_catch. simpl await.
  rewrite (await_plain _ Hd). reflexivity.
Qed.

Lemma retry_rejected (e : Value) (w1 : World) :
  pRetry_attempts fn (retry_config options) 0
    (retries (retry_config options)) w = (Abrupt e, w1) ->
  Attempt_retry deps fn options w
  = async (handleError deps e (try_options options)) w1.
Proof.
  intros H. unfold Attempt_retry, bind, pRetry, async.
  fold (retry_config options). rewrite H.
  unfold promise_then, promise_catch. cbn [await]. cbv beta iota.
  destruct (handleError deps e (try_options options) w1). reflexivity.
Qed.

End retry_runner.

(** ** What the runners can return *)

Lemma handleError_shape deps e options w o w' :
  handleError deps e options w = (Normal o, w') -> is_failure o.
Proof.
  unfold handleError, call_dep, bind, emit, lift, ret. intros H.
  repeat (break_match_hyp H; try discriminate);
    inversion H; subst; eexists; reflexivity.
Qed.

Lemma async_handleError_shape deps e options w r :
  result_of (async (handleError deps e options) w) = Normal r ->
  exists c, r = VPromise c /\ forall o, c = Normal o -> is_outcome o.
Proof.
  unfold async. destruct (handleError deps e options w) as [c w'] eqn:Hh.
  simpl. intros H. inversion H; subst. exists c. split; [reflexivity |].
  intros o ->. right. eapply handleError_shape; eassumption.
Qed.

Lemma try_shape deps fn options w r :
  result_of (Attempt_try deps fn options w) = Normal r -> outcome_or_deferred r.
Proof.
  destruct (fn (calls w)) as [v | e] eqn:Hfn.
  - destruct (instanceof_Promise v) eqn:Hp.
    + destruct (await v) as [d | e] eqn:Ha.
      * rewrite (try_async_fulfilled _ _ _ _ Hfn Hp Ha). simpl. intros H.
        inversion H; subst. right. eexists. split; [reflexivity |].
        intros o Ho. inversion Ho; subst. left. eexists; reflexivity.
      * rewrite (try_async_rejected _ _ _ _ Hfn Hp Ha). intros H.
        right. eapply async_handleError_shape; eassumption.
    + rewrite (try_sync_return _ _ _ _ Hfn Hp). simpl. intros H.
      inversion H; subst. left. left. eexists; reflexivity.
  - rewrite (try_sync_throw _ _ _ _ Hfn).
    destruct (handleError deps e options (advance w)) as [c w'] eqn:Hh.
    simpl. intros ->. left. right. eapply handleError_shape; eassumption.
Qed.

Lemma retry_shape deps fn options w r :
  result_of (Attempt_retry deps fn options w) = Normal r ->
  exists c, r = VPromise c /\ forall o, c = Normal o -> is_outcome o.
Proof.
  destruct (pRetry_attempts fn
              (spread_retry_options (default 3 (tries options)) (retry options))
              0 (retries (spread_retry_options (default 3 (tries options))
                                               (retry options))) w)
    as [[d | e] w1] eqn:Hrun.
  - rewrite (retry_fulfilled _ _ _ _ Hrun). simpl. intros H.
    inversion H; subst. eexists. split; [reflexivity |].
    intros o Ho. inversion Ho; subst. left. eexists; reflexivity.
  - rewrite (retry_rejected _ _ _ _ Hrun).
    apply async_handleError_shape.
Qed.

Lemma is_outcome_not_promise o : is_outcome o -> instanceof_Promise o = false.
Proof. intros [[d ->] | [p ->]]; reflexivity. Qed.

Lemma Built_is_outcome o : Built o -> is_outcome o.
Proof.
  intros [d | p | deps fn options w o' H Hp | deps fn options w o' H
          | deps fn options w o' H].
  - left. eexists; reflexivity.
  - right. eexists; reflexivity.
  - destruct (try_shape _ _ _ _ H) as [Ho | [c [-> _]]];
      [exact Ho | discriminate].
  - destruct (try_shape _ _ _ _ H) as [Ho | [c [Hc Hall]]].
    + apply is_outcome_not_promise in Ho. discriminate.
    + inversion Hc; subst. apply Hall. reflexivity.
  - destruct (retry_shape _ _ _ _ H) as [c [Hc Hall]].
    inversion Hc; subst. apply Hall. reflexivity.
Qed.

(** C10. Every Outcome built by [ok], [error], [try] or [retry] has exactly
    the three keys [ok], [error], [data], in that order.  On a success the
    [error] key is present and holds [undefined]; on a failure the [data]
    key is present and holds [undefined].  So both fields can be read on
    every Outcome without meeting a missing key. *)
Theorem outcome_has_three_keys (o : Value) :
  Built o ->
  keys (own_props o) = ["ok"; "error"; "data"] /\
  ((get "ok" (own_props o) = Some (VBool true) /\
    get "error" (own_props o) = Some VUndefined /\
    exists data, get "data" (own_props o) = Some data)
   \/
   (get "ok" (own_props o) = Some (VBool false) /\
    get "data" (own_props o) = Some VUndefined /\
    exists payload, get "error" (own_props o) = Some payload)).
Proof.
  intros H. destruct (Built_is_outcome H) as [[d ->] | [p ->]].
  - split; [reflexivity |]. left. repeat split. exists d. reflexivity.
  - split; [reflexivity |]. right. repeat split. exists p. reflexivity.
Qed.

Lemma outcome_has_three_keys_witness :
  let o := Attempt_error (VObj [("client", VObj [("code", VStr "UNKNOWN_ERROR")])]) in
  result_of (Attempt_retry careful_attempt (throws (new_Error "boom"))
               {| tries := Some 1; retry := None;
                  try_options := {| report := None; client := Some true;
                                    errors := None |} |} init)
  = Normal (VPromise (Normal o)) /\
  keys (own_props o) = ["ok"; "error"; "data"] /\
  get "data" (own_props o) = Some VUndefined.
Proof.
  intros o.
  assert (HB : Built o).
  { apply built_retry with
      (deps := careful_attempt) (fn := throws (new_Error "boom"))
      (options := {| tries := Some 1; retry := None;
                     try_options := {| report := None; client := Some true;
                                       errors := None |} |})
      (w := init).
    reflexivity. }
  split; [reflexivity |].
  destruct (outcome_has_three_keys HB) as [Hkeys _].
  split; [exact Hkeys | reflexivity].
Defined.

(** C8. The deferred-result test of [try] is [instanceof Promise] only.  An
    operation that returns a thenable which is not a native promise gets a
    Success Outcome back at once, whose [data] is that thenable, unawaited;
    whatever the thenable settles to later, a rejection included, no
    normalizer, logger or reporter call is made for it. *)
Theorem try_does_not_await_foreign_thenable deps fn options w v :
  fn (calls w) = Normal v ->
  thenable v = true ->
  instanceof_Promise v = false ->
  Attempt_try deps fn options w = (Normal (Attempt_ok v), advance w) /\
  get "data" (own_props (Attempt_ok v)) = Some v /\
  trace (world_of (Attempt_try deps fn options w)) = trace w.
Proof.
  intros Hfn _ Hp. rewrite (try_sync_return _ _ _ _ Hfn Hp).
  repeat split.
Qed.

Lemma try_does_not_await_foreign_thenable_witness :
  thenable (VThenable (Abrupt (new_Error "late"))) = true /\
  await (VThenable (Abrupt (new_Error "late"))) = Abrupt (new_Error "late") /\
  Attempt_try attempt (returns (VThenable (Abrupt (new_Error "late"))))
    no_options init
  = (Normal (Attempt_ok (VThenable (Abrupt (new_Error "late")))), advance init).
Proof.
  split; [reflexivity | split; [reflexivity |]].
  exact (proj1 (try_does_not_await_foreign_thenable attempt
                  (returns (VThenable (Abrupt (new_Error "late"))))
                  no_options init
                  (v := VThenable (Abrupt (new_Error "late")))
                  eq_refl eq_refl eq_refl)).
Defined.

(** ** Where the runners hand a failure to [handleError] *)

Lemma try_catches deps fn options w e :
  caught_by_try fn w = Some e ->
  Attempt_try deps fn options w
  = (if try_defers fn w then async (handleError deps e options) (advance w)
     else handleError deps e options (advance w)).
Proof.
  unfold caught_by_try, try_defers. destruct (fn (calls w)) as [v | e'] eqn:Hfn.
  - destruct (instanceof_Promise v) eqn:Hp; [| discriminate].
    destruct (await v) as [d | e'] eqn:Ha; [discriminate |].
    intros H; inversion H; subst.
    eapply try_async_rejected; eassumption.
  - intros H; inversion H; subst. apply try_sync_throw. assumption.
Qed.

Lemma try_no_failure deps fn options w :
  caught_by_try fn w = None ->
  exists data,
    Attempt_try deps fn options w
    = (Normal (if try_defers fn w then VPromise (Normal (Attempt_ok data))
               else Attempt_ok data), advance w).
Proof.
  unfold caught_by_try, try_defers. destruct (fn (calls w)) as [v | e'] eqn:Hfn;
    [| discriminate].
  destruct (instanceof_Promise v) eqn:Hp.
  - destruct (await v) as [d | e'] eqn:Ha; [| discriminate].
    intros _. exists d. eapply try_async_fulfilled; eassumption.
  - intros _. exists v. apply try_sync_return; assumption.
Qed.

Lemma retry_catches deps fn options w e :
  caught_by_retry fn options w = Some e ->
  exists w1,
    trace w1 = trace w /\
    Attempt_retry deps fn options w
    = async (handleError deps e (try_options options)) w1.
Proof.
  unfold caught_by_retry.
  set (cfg := spread_retry_options (default 3 (tries options)) (retry options)).
  pose proof (pRetry_attempts_world fn cfg (retries cfg) 0 w) as [Ht _].
  destruct (pRetry_attempts fn cfg 0 (retries cfg) w) as [[d | e'] w1] eqn:Hrun;
    [discriminate |].
  intros H; inversion H; subst. exists w1. split; [exact Ht |].
  apply retry_rejected. exact Hrun.
Qed.

Lemma retry_no_failure deps fn options w :
  caught_by_retry fn options w = None ->
  exists data w1,
    Attempt_retry deps fn options w
    = (Normal (VPromise (Normal (Attempt_ok data))), w1).
Proof.
  unfold caught_by_retry.
  set (cfg := spread_retry_options (default 3 (tries options)) (retry options)).
  destruct (pRetry_attempts fn cfg 0 (retries cfg) w) as [[d | e'] w1] eqn:Hrun;
    [| discriminate].
  intros _. exists d, w1. apply retry_fulfilled. exact Hrun.
Qed.

Lemma client_default options :
  client options = Some true -> default false (client options) = true.
Proof. intros ->. reflexivity. Qed.

(** A value without a callable [toClient] makes the projection call throw. *)
Lemma no_callable_toClient_raises n :
  callable_toClient n = false -> exists x, call_toClient n = Abrupt x.
Proof.
  unfold callable_toClient, call_toClient.
  destruct n; simpl; try (intros _; eexists; reflexivity);
    destruct (get "toClient" _) as [[] |]; try discriminate;
    intros _; eexists; reflexivity.
Qed.

Lemma raising_toClient_raises n src x :
  get "toClient" (own_props n) = Some (VFun src (Abrupt x)) ->
  call_toClient n = Abrupt x.
Proof.
  unfold call_toClient. destruct n; simpl; try discriminate;
    intros ->; reflexivity.
Qed.

(** C9. With [client: true], [handleError] calls [toClient()] on whatever
    the normalizer returned, unguarded.  When that value has no callable
    [toClient], or its [toClient] raises, the failure handler raises some
    [x]: a [try] whose operation throws synchronously raises [x] itself,
    and a [try] whose operation's promise rejects, and every [retry] that
    ends in failure, answer with a promise rejected with [x] -- no Outcome
    is returned. *)
Theorem unguarded_toClient_escapes deps options e n :
  client options = Some true ->
  normalizeError deps e (aux_of options) = Normal n ->
  reports_quietly deps options e = true ->
  callable_toClient n = false \/
  (exists src x, get "toClient" (own_props n) = Some (VFun src (Abrupt x))) ->
  exists x,
    call_toClient n = Abrupt x /\
    (forall fn w,
        caught_by_try fn w = Some e ->
        result_of (Attempt_try deps fn options w)
        = if try_defers fn w then Normal (VPromise (Abrupt x)) else Abrupt x) /\
    (forall fn retry_options w,
        try_options retry_options = options ->
        caught_by_retry fn retry_options w = Some e ->
        result_of (Attempt_retry deps fn retry_options w)
        = Normal (VPromise (Abrupt x))).
Proof.
  intros Hc Hn Hq Hbad. apply client_default in Hc.
  assert (exists x, call_toClient n = Abrupt x) as [x Hx].
  { destruct Hbad as [Hno | [src [x Hget]]].
    - apply no_callable_toClient_raises. exact Hno.
    - exists x. eapply raising_toClient_raises. exact Hget. }
  exists x. split; [exact Hx | split].
  - intros fn w Hcaught. rewrite (try_catches deps fn options w Hcaught).
    unfold async. destruct (try_defers fn w);
      rewrite (handleError_client _ _ _ _ Hn Hq Hc), Hx; reflexivity.
  - intros fn ropts w Hopts Hcaught.
    destruct (retry_catches deps fn ropts w Hcaught) as [w1 [_ ->]].
    rewrite Hopts. unfold async.
    rewrite (handleError_client _ _ _ _ Hn Hq Hc), Hx. reflexivity.
Qed.

Lemma unguarded_toClient_escapes_witness :
  let options := {| report := None; client := Some true; errors := None |} in
  let boom := new_Error "boom" in
  exists x,
    result_of (Attempt_try bare_attempt (throws boom) options init) = Abrupt x /\
    result_of (Attempt_try bare_attempt (returns (VPromise (Abrupt boom)))
                 options init)
    = Normal (VPromise (Abrupt x)) /\
    result_of (Attempt_retry bare_attempt (throws boom)
                 {| tries := None; retry := None; try_options := options |} init)
    = Normal (VPromise (Abrupt x)).
Proof.
  intros options boom.
  destruct (@unguarded_toClient_escapes bare_attempt options boom
              (VObj [("message", VStr "normalized")])
              eq_refl eq_refl eq_refl (or_introl eq_refl))
    as [x [_ [Htry Hretry]]].
  exists x. split; [| split].
  - exact (Htry (throws boom) init eq_refl).
  - exact (Htry (returns (VPromise (Abrupt boom))) init eq_refl).
  - exact (Hretry (throws boom)
             {| tries := None; retry := None; try_options := options |}
             init eq_refl eq_refl).
Defined.

Lemma original_error_is_error e E :
  original_error e = Normal E ->
  instanceof_Error E = true /\
  (instanceof_Error e = true -> E = e) /\
  (instanceof_Error e = false -> exists s, js_String e = Normal s /\ E = new_Error s).
Proof.
  unfold original_error. destruct (instanceof_Error e) eqn:He.
  - intros H; inversion H; subst. repeat split; [exact He | discriminate].
  - destruct (js_String e) as [s | x]; [| discriminate].
    intros H; inversion H; subst. repeat split; [discriminate |].
    intros _. exists s. split; reflexivity.
Qed.

(** C6, as the code has it.  A non-client [try] that catches [e] answers with
    an InternalFailure Outcome provided [e] is an [Error] instance or
    [String(e)] returns (and the normalizer and reporting return).  Its
    payload has exactly the keys [error] and [normalized] and no [client]
    key; [normalized] is what the normalizer returned; [error] is an [Error]
    instance: [e] itself when [e] is one, otherwise [new Error(s)] whose
    message [s] is the string form of [e]. *)
Theorem internal_failure_payload deps options e n :
  default false (client options) = false ->
  normalizeError deps e (aux_of options) = Normal n ->
  reports_quietly deps options e = true ->
  instanceof_Error e = true \/ completes (js_String e) = true ->
  exists E,
    let payload := VObj [("error", E); ("normalized", n)] in
    (forall fn w,
        caught_by_try fn w = Some e ->
        result_of (Attempt_try deps fn options w)
        = Normal (if try_defers fn w
                  then VPromise (Normal (Attempt_error payload))
                  else Attempt_error payload)) /\
    keys (own_props payload) = ["error"; "normalized"] /\
    get "client" (own_props payload) = None /\
    instanceof_Error E = true /\
    (instanceof_Error e = true -> E = e) /\
    (instanceof_Error e = false ->
     exists s, js_String e = Normal s /\ E = VError "Error" s []).
Proof.
  intros Hc Hn Hq Hstr.
  assert (exists E, original_error e = Normal E) as [E HE].
  { unfold original_error. destruct Hstr as [-> | Hs]; [eexists; reflexivity |].
    destruct (instanceof_Error e); [eexists; reflexivity |].
    destruct (js_String e); [eexists; reflexivity | discriminate]. }
  exists E. intros payload.
  destruct (original_error_is_error _ HE) as [H1 [H2 H3]].
  repeat split; try assumption.
  intros fn w Hcaught. rewrite (try_catches deps fn options w Hcaught).
  unfold async. destruct (try_defers fn w);
    rewrite (handleError_internal _ _ _ _ Hn Hq Hc), HE; reflexivity.
Qed.

Lemma internal_failure_payload_witness :
  exists n,
    result_of (Attempt_try attempt (throws (VStr "plain string")) no_options init)
    = Normal (Attempt_error
                (VObj [("error", VError "Error" "plain string" []);
                       ("normalized", n)])).
Proof.
  destruct (@internal_failure_payload attempt no_options (VStr "plain string") _
              eq_refl eq_refl eq_refl (or_intror eq_refl))
    as [E [Htry [_ [_ [_ [_ Hmsg]]]]]].
  destruct (Hmsg eq_refl) as [s [Hs HE]].
  inversion Hs; subst s. subst E.
  eexists. exact (Htry (throws (VStr "plain string")) init eq_refl).
Defined.

(** C6 as stated fails: the thrown value may be an object whose conversion
    to a string throws; then [String(error)] throws inside [handleError] and
    the non-client [try] raises instead of returning an InternalFailure. *)
Lemma internal_failure_payload_counterexample :
  deps_never_raise careful_attempt /\
  js_String unprintable = Abrupt (VStr "no string form") /\
  result_of (Attempt_try careful_attempt (throws unprintable) no_options init)
  = Abrupt (VStr "no string form").
Proof.
  split; [| split; reflexivity].
  repeat split; intros; reflexivity.
Qed.

Lemma deps_never_raise_quiet deps options e :
  deps_never_raise deps ->
  (exists n, normalizeError deps e (aux_of options) = Normal n) /\
  reports_quietly deps options e = true.
Proof.
  intros [Hn [Hl Hr]]. split.
  - specialize (Hn e (aux_of options)).
    destruct (normalizeError deps e (aux_of options)) as [n | x];
      [exists n; reflexivity | discriminate].
  - unfold reports_quietly. rewrite Hl, Hr. destruct (default true _); reflexivity.
Qed.

Lemma handleError_returns deps options e w :
  deps_never_raise deps ->
  payload_completes deps options e = true ->
  exists o w', is_failure o /\ handleError deps e options w = (Normal o, w').
Proof.
  intros Hdeps Hpay.
  destruct (deps_never_raise_quiet options e Hdeps) as [[n Hn] Hq].
  unfold payload_completes in Hpay. rewrite Hn in Hpay.
  destruct (default false (client options)) eqn:Hc.
  - rewrite (handleError_client _ _ _ w Hn Hq Hc).
    destruct (call_toClient n) as [c | x]; [| discriminate].
    do 2 eexists. split; [eexists |]; reflexivity.
  - rewrite (handleError_internal _ _ _ w Hn Hq Hc).
    destruct (original_error e) as [E | x]; [| discriminate].
    do 2 eexists. split; [eexists |]; reflexivity.
Qed.

(** C1, as the code has it.  Take a normalizer, logger and reporter that
    never raise, and suppose that for the failure caught (if any) the last
    step of the failure handler returns: with [client: true] the normalized
    error's [toClient()] is callable and returns, otherwise the caught value
    is an [Error] instance or [String] of it returns.  Then [try] and [retry]
    never raise: [try] answers a synchronous throw with an Outcome returned
    directly, and a rejected promise with a promise that resolves to an
    Outcome; [retry] always answers with a promise that resolves to an
    Outcome.  A caught failure gives a failure Outcome. *)
Theorem runners_never_raise deps options :
  deps_never_raise deps ->
  (forall fn w,
      (forall e, caught_by_try fn w = Some e ->
                 payload_completes deps options e = true) ->
      exists o,
        is_outcome o /\
        result_of (Attempt_try deps fn options w)
        = Normal (if try_defers fn w then VPromise (Normal o) else o) /\
        (forall e, caught_by_try fn w = Some e -> is_failure o)) /\
  (forall fn retry_options w,
      try_options retry_options = options ->
      (forall e, caught_by_retry fn retry_options w = Some e ->
                 payload_completes deps options e = true) ->
      exists o,
        is_outcome o /\
        result_of (Attempt_retry deps fn retry_options w)
        = Normal (VPromise (Normal o)) /\
        (forall e, caught_by_retry fn retry_options w = Some e -> is_failure o)).
Proof.
  intros Hdeps. split.
  - intros fn w Hpay. destruct (caught_by_try fn w) as [e |] eqn:Hcaught.
    + destruct (handleError_returns options e (advance w) Hdeps (Hpay e eq_refl))
        as [o [w' [Ho Hrun]]].
      exists o. split; [right; exact Ho | split; [| intros; exact Ho]].
      rewrite (try_catches deps fn options w Hcaught). unfold async.
      rewrite Hrun. destruct (try_defers fn w); reflexivity.
    + destruct (try_no_failure deps fn options w Hcaught) as [d Hrun].
      exists (Attempt_ok d). split; [left; eexists; reflexivity |].
      split; [| discriminate]. rewrite Hrun. simpl.
      destruct (try_defers fn w); reflexivity.
  - intros fn ropts w Hopts Hpay.
    destruct (caught_by_retry fn ropts w) as [e |] eqn:Hcaught.
    + destruct (retry_catches deps fn ropts w Hcaught) as [w1 [_ Hrun]].
      destruct (handleError_returns options e w1 Hdeps (Hpay e eq_refl))
        as [o [w' [Ho Hh]]].
      exists o. split; [right; exact Ho | split; [| intros; exact Ho]].
      rewrite Hrun, Hopts. unfold async. rewrite Hh. reflexivity.
    + destruct (retry_no_failure deps fn ropts w Hcaught) as [d [w1 Hrun]].
      exists (Attempt_ok d). split; [left; eexists; reflexivity |].
      split; [| discriminate]. rewrite Hrun. reflexivity.
Qed.

Lemma runners_never_raise_witness :
  deps_never_raise careful_attempt /\
  (exists o, is_failure o /\
     result_of (Attempt_try careful_attempt (throws (VStr "plain string"))
                  no_options init) = Normal o) /\
  (exists o, is_failure o /\
     result_of (Attempt_try careful_attempt
                  (returns (VPromise (Abrupt (new_Error "rejected"))))
                  {| report := None; client := Some true; errors := None |} init)
     = Normal (VPromise (Normal o))) /\
  (exists o, is_failure o /\
     result_of (Attempt_retry careful_attempt (throws (new_Error "always fails"))
                  {| tries := Some 2; retry := None; try_options := no_options |}
                  init)
     = Normal (VPromise (Normal o))).
Proof.
  assert (Hdeps : deps_never_raise careful_attempt)
    by (repeat split; intros; reflexivity).
  split; [exact Hdeps |].
  split; [| split].
  - destruct (proj1 (runners_never_raise no_options Hdeps)
                (throws (VStr "plain string")) init) as [o [_ [Hr Hf]]].
    + intros e H; inversion H; subst. reflexivity.
    + exists o. split; [exact (Hf _ eq_refl) | exact Hr].
  - destruct (proj1 (runners_never_raise
                       {| report := None; client := Some true; errors := None |}
                       Hdeps)
                (returns (VPromise (Abrupt (new_Error "rejected")))) init)
      as [o [_ [Hr Hf]]].
    + intros e H; inversion H; subst. reflexivity.
    + exists o. split; [exact (Hf _ eq_refl) | exact Hr].
  - destruct (proj2 (runners_never_raise no_options Hdeps)
                (throws (new_Error "always fails"))
                {| tries := Some 2; retry := None; try_options := no_options |}
                init eq_refl) as [o [_ [Hr Hf]]].
    + intros e H; inversion H; subst. reflexivity.
    + exists o. split; [exact (Hf _ eq_refl) | exact Hr].
Defined.

(** C1 as stated fails: with a normalizer, logger and reporter that never
    raise, a normalized error without [toClient] and [client: true] make a
    throwing operation's [try] raise, and make [try] on a rejected promise
    and [retry] answer with a rejected promise. *)
Lemma runners_never_raise_counterexample :
  let options := {| report := None; client := Some true; errors := None |} in
  let x := TypeError "normalized.toClient is not a function" in
  deps_never_raise bare_attempt /\
  result_of (Attempt_try bare_attempt (throws (new_Error "boom")) options init)
  = Abrupt x /\
  result_of (Attempt_try bare_attempt
               (returns (VPromise (Abrupt (new_Error "boom")))) options init)
  = Normal (VPromise (Abrupt x)) /\
  result_of (Attempt_retry bare_attempt (throws (new_Error "boom"))
               {| tries := Some 0; retry := None; try_options := options |} init)
  = Normal (VPromise (Abrupt x)).
Proof.
  intros options x. split; [| repeat split].
  repeat split; intros; reflexivity.
Qed.

(** ** Counting the invocations of [retry] *)

Lemma keeps_calls_ret A (a : A) : keeps_calls (ret a).
Proof. intros w. reflexivity. Qed.

Lemma keeps_calls_lift A (c : Completion Value A) : keeps_calls (lift c).
Proof. intros w. reflexivity. Qed.

Lemma keeps_calls_emit ev : keeps_calls (emit ev).
Proof. intros w. reflexivity. Qed.

Lemma keeps_calls_bind A B (m : M A) (k : A -> M B) :
  keeps_calls m -> (forall a, keeps_calls (k a)) -> keeps_calls (bind m k).
Proof.
  intros Hm Hk w. unfold bind. specialize (Hm w).
  destruct (m w) as [[a | e] w']; simpl in *; [| exact Hm].
  rewrite (Hk a w'). exact Hm.
Qed.

Create HintDb keeps.

#[local] Hint Resolve keeps_calls_ret keeps_calls_lift keeps_calls_emit
  keeps_calls_bind : keeps.

Lemma keeps_calls_call_dep ev c : keeps_calls (call_dep ev c).
Proof. unfold call_dep. auto 6 with keeps. Qed.

#[local] Hint Resolve keeps_calls_call_dep : keeps.

Lemma handleError_calls deps e options w :
  calls (world_of (handleError deps e options w)) = calls w.
Proof.
  revert w. change (keeps_calls (handleError deps e options)).
  unfold handleError.
  repeat first
    [ apply keeps_calls_bind; [| intros ?]
    | match goal with
      | |- keeps_calls (if ?b then _ else _) => destruct b
      | |- keeps_calls (match ?x with _ => _ end) => destruct x
      end
    | solve [auto with keeps] ].
Qed.

Lemma retry_calls deps fn options w :
  let cfg := spread_retry_options (default 3 (tries options)) (retry options) in
  calls (world_of (Attempt_retry deps fn options w))
  = calls (world_of (pRetry_attempts fn cfg 0 (retries cfg) w)).
Proof.
  intros cfg.
  destruct (pRetry_attempts fn cfg 0 (retries cfg) w) as [[d | e] w1] eqn:Hrun.
  - rewrite (retry_fulfilled _ _ _ _ Hrun). reflexivity.
  - rewrite (retry_rejected _ _ _ _ Hrun).
    pose proof (handleError_calls deps e (try_options options) w1) as Hc.
    unfold async. destruct (handleError deps e (try_options options) w1).
    exact Hc.
Qed.

Lemma spread_without_retries_key options :
  no_retries_key options ->
  retries (spread_retry_options (default 3 (tries options)) (retry options))
  = default 3 (tries options).
Proof.
  unfold no_retries_key, spread_retry_options.
  destruct (retry options) as [bag |]; [intros ->|]; reflexivity.
Qed.

Lemma spread_without_signal options :
  no_signal options ->
  cfg_signal (spread_retry_options (default 3 (tries options)) (retry options))
  = None.
Proof.
  unfold no_signal, spread_retry_options.
  destruct (retry options) as [bag |]; [intros ->|]; reflexivity.
Qed.

Lemma spread_without_predicate options :
  no_early_stop options ->
  cfg_shouldRetry
    (spread_retry_options (default 3 (tries options)) (retry options)) = None /\
  no_signal options.
Proof.
  unfold no_early_stop, no_signal, spread_retry_options.
  destruct (retry options) as [bag |]; [intros [-> ->] |]; split; reflexivity.
Qed.




(** ** JSON serialization, equation by equation *)

Lemma serialize_object_eq (ps : Props) :
  serialize false (VObj ps)
  = match serialize_members ps with
    | Abrupt e => Abrupt e
    | Normal ms => Normal (Some (JObj ms))
    end.
Proof.
  simpl.
  match goal with
  | |- match ?f ps with _ => _ end = _ =>
      assert (H : forall l, f l = serialize_members l);
      [| rewrite H; reflexivity]
  end.
  induction l as [| [k x] rest IH]; [reflexivity |].
  simpl. rewrite IH. reflexivity.
Qed.

Lemma serialize_array_eq (hook : bool) (items : list Value) :
  serialize hook (VArr items)
  = match serialize_elements items with
    | Abrupt e => Abrupt e
    | Normal js => Normal (Some (JArr js))
    end.
Proof.
  assert (H : serialize hook (VArr items) = serialize false (VArr items))
    by (destruct hook; reflexivity).
  rewrite H. simpl.
  match goal with
  | |- match ?f items with _ => _ end = _ =>
      assert (H' : forall l, f l = serialize_elements l);
      [| rewrite H'; reflexivity]
  end.
  induction l as [| x rest IH]; [reflexivity |].
  simpl. rewrite IH. reflexivity.
Qed.

Lemma serialize_hook_eq (ps : Props) :
  serialize true (VObj ps)
  = match get "toJSON" ps with
    | Some (VFun _ (Normal y)) => serialize false y
    | Some (VFun _ (Abrupt e)) => Abrupt e
    | _ => serialize false (VObj ps)
    end.
Proof.
  change (serialize true (VObj ps)) with
    ((fix find (l : Props) : Completion Value (option Json) :=
        match l with
        | [] => serialize false (VObj ps)
        | (k, x) :: rest =>
            if String.eqb "toJSON" k then
              match x with
              | VFun _ c =>
                  match c with
                  | Normal y => serialize false y
                  | Abrupt e => Abrupt e
                  end
              | _ => serialize false (VObj ps)
              end
            else find rest
        end) ps).
  generalize (serialize false (VObj ps)) as plain. intros plain.
  induction ps as [| [k x] rest IH]; [reflexivity |].
  cbn [get]. destruct (String.eqb "toJSON" k); [| exact IH].
  destruct x; reflexivity.
Qed.

Lemma serialize_hook_error_eq (name message : string) (ps : Props) :
  serialize true (VError name message ps) = serialize true (VObj ps).
Proof. reflexivity. Qed.

Lemma JSON_parse_object_eq (ms : list (string * Json)) :
  JSON_parse (JObj ms) = VObj (parse_members ms).
Proof.
  simpl. f_equal. induction ms as [| [k x] rest IH]; [reflexivity |].
  simpl. rewrite IH. reflexivity.
Qed.

Lemma json_plain_object_eq (ps : Props) :
  json_plain (VObj ps) = json_plain_props ps.
Proof.
  simpl. induction ps as [| [k x] rest IH]; [reflexivity |].
  simpl. rewrite IH. reflexivity.
Qed.

Lemma json_plain_props_get (ps : Props) (k : string) (x : Value) :
  json_plain_props ps = true -> get k ps = Some x -> json_plain x = true.
Proof.
  induction ps as [| [k' y] rest IH]; simpl; [discriminate |].
  intros H. apply andb_prop in H. destruct H as [Hy Hrest].
  destruct (String.eqb k k'); [intros E; inversion E; subst; exact Hy |].
  apply IH. exact Hrest.
Qed.

(** Without a callable [toJSON], the hook changes nothing. *)
Lemma serialize_hook_plain (ps : Props) :
  json_plain_props ps = true ->
  serialize true (VObj ps) = serialize false (VObj ps).
Proof.
  intros Hp. rewrite serialize_hook_eq.
  destruct (get "toJSON" ps) as [x |] eqn:Hget; [| reflexivity].
  pose proof (json_plain_props_get _ _ Hp Hget) as Hx.
  destruct x; try reflexivity; discriminate.
Qed.

(** Plain JSON data is serialized whole and parsed back unchanged. *)
Lemma serialize_plain (v : Value) :
  json_plain v = true ->
  forall hook, exists j, serialize hook v = Normal (Some j) /\ JSON_parse j = v.
Proof.
  induction v using Value_data_ind; try discriminate.
  - intros _ hook. exists JNull. destruct hook; split; reflexivity.
  - intros _ hook. exists (JBool b). destruct hook; split; reflexivity.
  - intros _ hook. exists (JNum n). destruct hook; split; reflexivity.
  - intros _ hook. exists (JStr s). destruct hook; split; reflexivity.
  - intros Hp hook. rewrite serialize_array_eq.
    assert (exists js, serialize_elements items = Normal js /\
                       map JSON_parse js = items) as [js [Hjs Hback]].
    { simpl in Hp. induction H as [| x rest Hx Hrest IH].
      - exists []. split; reflexivity.
      - simpl in Hp. apply andb_prop in Hp. destruct Hp as [Hpx Hprest].
        destruct (Hx Hpx true) as [j [Hj Hjback]].
        destruct (IH Hprest) as [js [Hjs Hback]].
        exists (j :: js). simpl. rewrite Hj, Hjs. split; [reflexivity |].
        rewrite Hjback, Hback. reflexivity. }
    rewrite Hjs. eexists. split; [reflexivity |]. simpl. rewrite Hback.
    reflexivity.
  - intros Hp hook. rewrite json_plain_object_eq in Hp.
    assert (Hhook : serialize hook (VObj ps) = serialize false (VObj ps))
      by (destruct hook; [apply serialize_hook_plain; exact Hp | reflexivity]).
    rewrite Hhook, serialize_object_eq.
    assert (exists ms, serialize_members ps = Normal ms /\
                       parse_members ms = ps) as [ms [Hms Hback]].
    { clear Hhook. induction H as [| [k x] rest Hx Hrest IH].
      - exists []. split; reflexivity.
      - simpl in Hp. apply andb_prop in Hp. destruct Hp as [Hpx Hprest].
        destruct (Hx Hpx true) as [j [Hj Hjback]].
        destruct (IH Hprest) as [ms [Hms Hback]].
        simpl in Hj, Hjback.
        exists ((k, j) :: ms). simpl. rewrite Hj, Hms. split; [reflexivity |].
        fold (parse_members ms). rewrite Hjback, Hback. reflexivity. }
    rewrite Hms. eexists. split; [reflexivity |].
    rewrite JSON_parse_object_eq, Hback. reflexivity.
Qed.

Lemma roundtrip_plain (v : Value) :
  json_plain v = true -> JSON_roundtrip v = Normal (Some v).
Proof.
  intros Hp. unfold JSON_roundtrip, JSON_stringify.
  destruct (serialize_plain v Hp true) as [j [-> ->]]. reflexivity.
Qed.

(** An [Error] instance is serialized as the object of its own enumerable
    properties: its name and message are not among them. *)
Lemma roundtrip_error (name message : string) (ps : Props) :
  json_plain_props ps = true ->
  JSON_roundtrip (VError name message ps) = Normal (Some (VObj ps)).
Proof.
  intros Hp. unfold JSON_roundtrip, JSON_stringify.
  rewrite serialize_hook_error_eq.
  rewrite <- json_plain_object_eq in Hp.
  destruct (serialize_plain (VObj ps) Hp true) as [j [-> ->]]. reflexivity.
Qed.

Lemma roundtrip_inv (v r : Value) :
  JSON_roundtrip v = Normal (Some r) ->
  exists j, serialize true v = Normal (Some j) /\ JSON_parse j = r.
Proof.
  unfold JSON_roundtrip, JSON_stringify.
  destruct (serialize true v) as [[j |] | e]; try discriminate.
  intros H; inversion H; subst. exists j. split; reflexivity.
Qed.

Lemma stringify_ok (data : Value) :
  JSON_stringify (Attempt_ok data)
  = match serialize true data with
    | Abrupt e => Abrupt e
    | Normal j =>
        Normal (Some (JObj (("ok", JBool true) ::
                            match j with
                            | Some j' => [("data", j')]
                            | None => []
                            end)))
    end.
Proof.
  unfold JSON_stringify, Attempt_ok. rewrite serialize_hook_eq.
  cbn [get String.eqb Ascii.eqb Bool.eqb]. rewrite serialize_object_eq.
  cbn [serialize_members]. cbn [serialize].
  destruct (serialize true data) as [[j |] | e]; reflexivity.
Qed.

Lemma stringify_error (payload : Value) :
  JSON_stringify (Attempt_error payload)
  = match serialize true payload with
    | Abrupt e => Abrupt e
    | Normal j =>
        Normal (Some (JObj (("ok", JBool false) ::
                            match j with
                            | Some j' => [("error", j')]
                            | None => []
                            end)))
    end.
Proof.
  unfold JSON_stringify, Attempt_error. rewrite serialize_hook_eq.
  cbn [get String.eqb Ascii.eqb Bool.eqb]. rewrite serialize_object_eq.
  cbn [serialize_members]. cbn [serialize].
  destruct (serialize true payload) as [[j |] | e]; reflexivity.
Qed.

Lemma roundtrip_client_payload (c c' : Value) :
  JSON_roundtrip c = Normal (Some c') ->
  JSON_roundtrip (Attempt_error (VObj [("client", c)]))
  = Normal (Some (VObj [("ok", VBool false);
                        ("error", VObj [("client", c')])])).
Proof.
  intros Hc. destruct (roundtrip_inv _ Hc) as [j [Hj Hback]].
  unfold JSON_roundtrip. rewrite stringify_error, serialize_hook_eq.
  cbn [get String.eqb Ascii.eqb Bool.eqb]. rewrite serialize_object_eq.
  cbn [serialize_members]. rewrite Hj.
  rewrite !JSON_parse_object_eq. cbn [parse_members map fst snd].
  rewrite JSON_parse_object_eq. cbn [parse_members map fst snd].
  rewrite Hback. reflexivity.
Qed.

Lemma roundtrip_internal_payload (E n E' n' : Value) :
  JSON_roundtrip E = Normal (Some E') ->
  JSON_roundtrip n = Normal (Some n') ->
  JSON_roundtrip (Attempt_error (VObj [("error", E); ("normalized", n)]))
  = Normal (Some (VObj [("ok", VBool false);
                        ("error", VObj [("error", E'); ("normalized", n')])])).
Proof.
  intros HE Hn.
  destruct (roundtrip_inv _ HE) as [jE [HjE HbackE]].
  destruct (roundtrip_inv _ Hn) as [jn [Hjn Hbackn]].
  unfold JSON_roundtrip. rewrite stringify_error, serialize_hook_eq.
  cbn [get String.eqb Ascii.eqb Bool.eqb]. rewrite serialize_object_eq.
  cbn [serialize_members]. rewrite HjE, Hjn.
  rewrite JSON_parse_object_eq. cbn [parse_members map fst snd].
  rewrite JSON_parse_object_eq. cbn [parse_members map fst snd].
  rewrite HbackE, Hbackn. reflexivity.
Qed.

(** C4, as the code has it.  For every Outcome built by [ok], [error], [try]
    or [retry]: whenever its JSON serialization returns, parsing it back gives
    an object with the same [ok] discriminant, and a Success comes back
    without an [error] key (absent, never an empty object).  A ClientFailure
    comes back with the single key [client], and an InternalFailure with the
    two keys [error] and [normalized], each bound to the round trip of the
    field, whenever the fields have a serialization.  Field contents are
    kept exactly for plain JSON data only: an [Error] instance comes back as
    the object of its own enumerable properties, without its message. *)
Theorem outcome_json_round_trip (o : Value) :
  Built o ->
  (forall r,
      JSON_roundtrip o = Normal r ->
      exists ms,
        r = Some (VObj ms) /\
        get "ok" ms = get "ok" (own_props o) /\
        (is_success o -> get "error" ms = None)) /\
  (forall c c',
      o = Attempt_error (VObj [("client", c)]) ->
      JSON_roundtrip c = Normal (Some c') ->
      JSON_roundtrip o
      = Normal (Some (VObj [("ok", VBool false);
                            ("error", VObj [("client", c')])]))) /\
  (forall E n E' n',
      o = Attempt_error (VObj [("error", E); ("normalized", n)]) ->
      JSON_roundtrip E = Normal (Some E') ->
      JSON_roundtrip n = Normal (Some n') ->
      JSON_roundtrip o
      = Normal (Some (VObj [("ok", VBool false);
                            ("error", VObj [("error", E'); ("normalized", n')])]))) /\
  (forall v, json_plain v = true -> JSON_roundtrip v = Normal (Some v)) /\
  (forall name message ps,
      json_plain_props ps = true ->
      JSON_roundtrip (VError name message ps) = Normal (Some (VObj ps))).
Proof.
  intros HB. split; [| split; [| split; [| split]]].
  - intros r Hr. unfold JSON_roundtrip in Hr.
    destruct (Built_is_outcome HB) as [[d ->] | [p ->]].
    + rewrite stringify_ok in Hr.
      destruct (serialize true d) as [[j |] | e]; try discriminate;
        injection Hr as <-;
        eexists; (split; [reflexivity |]); split; reflexivity.
    + rewrite stringify_error in Hr.
      destruct (serialize true p) as [[j |] | e]; try discriminate;
        injection Hr as <-;
        eexists; (split; [reflexivity |]); (split; [reflexivity |]);
        intros [d Hd]; discriminate.
  - intros c c' -> Hc. apply roundtrip_client_payload. exact Hc.
  - intros E n E' n' -> HE Hn. apply roundtrip_internal_payload; assumption.
  - exact roundtrip_plain.
  - exact roundtrip_error.
Qed.

Lemma outcome_json_round_trip_witness :
  let client_failure :=
    Attempt_error (VObj [("client", VObj [("code", VStr "UNKNOWN_ERROR")])]) in
  Built client_failure /\
  JSON_roundtrip client_failure
  = Normal (Some (VObj [("ok", VBool false);
                        ("error",
                         VObj [("client", VObj [("code", VStr "UNKNOWN_ERROR")])])])).
Proof.
  intros client_failure.
  assert (HB : Built client_failure).
  { apply built_try with (deps := careful_attempt)
                         (fn := throws (new_Error "boom"))
                         (options := {| report := None; client := Some true;
                                        errors := None |})
                         (w := init); reflexivity. }
  split; [exact HB |].
  destruct (outcome_json_round_trip HB) as [_ [Hclient [_ [Hplain _]]]].
  exact (Hclient _ _ eq_refl
           (Hplain (VObj [("code", VStr "UNKNOWN_ERROR")]) eq_refl)).
Defined.

(** C4 as stated fails: the InternalFailure that the default instance's [try]
    returns for [throw new Error('boom')] does not keep its field contents
    through JSON: the raw cause comes back as an empty object, its message
    gone, and the normalized error comes back without [toClient]. *)
Lemma outcome_json_round_trip_counterexample :
  exists o r,
    result_of (Attempt_try attempt (throws (new_Error "boom")) no_options init)
    = Normal o /\
    Built o /\
    JSON_roundtrip o = Normal (Some r) /\
    get_in ["error"; "error"] o = Some (VError "Error" "boom" []) /\
    get_in ["error"; "error"] r = Some (VObj []) /\
    option_map (fun n => keys (own_props n)) (get_in ["error"; "normalized"] o)
    = Some ["message"; "code"; "userMessage"; "toClient"] /\
    option_map (fun n => keys (own_props n)) (get_in ["error"; "normalized"] r)
    = Some ["message"; "code"; "userMessage"].
Proof.
  do 2 eexists. split; [reflexivity |]. split.
  - apply built_try with (deps := attempt) (fn := throws (new_Error "boom"))
                         (options := no_options) (w := init); reflexivity.
  - repeat split.
Qed.

(** ** Further properties of the runners *)

Lemma async_calls (m : M Value) (w : World) :
  calls (world_of (async m w)) = calls (world_of (m w)).
Proof. unfold async. destruct (m w). reflexivity. Qed.

Lemma async_trace (m : M Value) (w : World) :
  trace (world_of (async m w)) = trace (world_of (m w)).
Proof. unfold async. destruct (m w). reflexivity. Qed.

Lemma async_result (m : M Value) (w : World) :
  result_of (async m w) = Normal (VPromise (result_of (m w))).
Proof. unfold async. destruct (m w). reflexivity. Qed.

(** X1. [try] invokes the operation exactly once, whatever the operation
    does and whatever the dependencies do: neither the success paths nor the
    failure handler run it again. *)
Theorem try_invokes_once deps fn options w :
  calls (world_of (Attempt_try deps fn options w)) = S (calls w).
Proof.
  destruct (caught_by_try fn w) as [e |] eqn:Hcaught.
  - rewrite (try_catches deps fn options w Hcaught).
    destruct (try_defers fn w); [rewrite async_calls |];
      apply (handleError_calls deps e options (advance w)).
  - destruct (try_no_failure deps fn options w Hcaught) as [d ->]. reflexivity.
Qed.

(** X2. When nothing is caught, no dependency is called.  A [try] whose
    operation neither throws nor rejects returns a Success and leaves the
    record of dependency calls as it was; so does a [retry] whose
    collaborator ends in success, failed attempts before that success
    included: they are neither normalized, logged nor reported. *)
Theorem success_is_silent deps :
  (forall fn options w,
      caught_by_try fn w = None ->
      trace (world_of (Attempt_try deps fn options w)) = trace w /\
      exists data,
        result_of (Attempt_try deps fn options w)
        = Normal (if try_defers fn w then VPromise (Normal (Attempt_ok data))
                  else Attempt_ok data)) /\
  (forall fn options w,
      caught_by_retry fn options w = None ->
      trace (world_of (Attempt_retry deps fn options w)) = trace w /\
      exists data,
        result_of (Attempt_retry deps fn options w)
        = Normal (VPromise (Normal (Attempt_ok data)))).
Proof.
  split.
  - intros fn options w Hcaught.
    destruct (try_no_failure deps fn options w Hcaught) as [d Hrun].
    rewrite Hrun. split; [reflexivity | exists d; reflexivity].
  - intros fn options w Hcaught. unfold caught_by_retry in Hcaught.
    pose proof (pRetry_attempts_world fn (retry_config options)
                  (retries (retry_config options)) 0 w) as [Ht _].
    fold (retry_config options) in Hcaught.
    destruct (pRetry_attempts fn (retry_config options) 0
                (retries (retry_config options)) w) as [[d | e] w1] eqn:Hrun;
      [| discriminate].
    rewrite (retry_fulfilled deps fn options w Hrun).
    split; [exact Ht | exists d; reflexivity].
Qed.

Lemma success_is_silent_witness :
  let fn : Operation :=
    fun k => if Nat.ltb k 2 then Abrupt (new_Error "retry me")
             else Normal (VStr "success") in
  let options := {| tries := Some 3; retry := None; try_options := no_options |} in
  trace (world_of (Attempt_try loud_attempt (returns VNull) no_options init)) = [] /\
  trace (world_of (Attempt_retry loud_attempt fn options init)) = [] /\
  calls (world_of (Attempt_retry loud_attempt fn options init)) = 3.
Proof.
  intros fn options.
  split; [| split].
  - exact (proj1 (proj1 (success_is_silent loud_attempt)
                    (returns VNull) no_options init eq_refl)).
  - exact (proj1 (proj2 (success_is_silent loud_attempt)
                    fn options init eq_refl)).
  - reflexivity.
Defined.

(** X3. Whether a call answers with a promise does not depend on the
    dependencies, raising ones included.  [retry] always returns a native
    promise and never raises at the call.  [try] returns a native promise
    when the operation returned one, and then never raises at the call;
    otherwise whatever it returns is not a promise. *)
Theorem deferred_calls_never_raise deps fn :
  (forall options w,
      exists c, result_of (Attempt_retry deps fn options w) = Normal (VPromise c)) /\
  (forall options w,
      try_defers fn w = true ->
      exists c, result_of (Attempt_try deps fn options w) = Normal (VPromise c)) /\
  (forall options w o,
      try_defers fn w = false ->
      result_of (Attempt_try deps fn options w) = Normal o ->
      instanceof_Promise o = false).
Proof.
  split; [| split].
  - intros options w.
    destruct (pRetry_attempts fn (retry_config options) 0
                (retries (retry_config options)) w) as [[d | e] w1] eqn:Hrun.
    + rewrite (retry_fulfilled deps fn options w Hrun). eexists; reflexivity.
    + rewrite (retry_rejected deps fn options w Hrun), async_result.
      eexists; reflexivity.
  - intros options w Hd.
    destruct (caught_by_try fn w) as [e |] eqn:Hcaught.
    + rewrite (try_catches deps fn options w Hcaught), Hd, async_result.
      eexists; reflexivity.
    + destruct (try_no_failure deps fn options w Hcaught) as [d ->].
      rewrite Hd. eexists; reflexivity.
  - intros options w o Hd Hr.
    destruct (caught_by_try fn w) as [e |] eqn:Hcaught.
    + rewrite (try_catches deps fn options w Hcaught), Hd in Hr.
      destruct (handleError deps e options (advance w)) as [c w'] eqn:Hh.
      simpl in Hr. subst c.
      destruct (handleError_shape _ _ _ _ Hh) as [p ->]. reflexivity.
    + destruct (try_no_failure deps fn options w Hcaught) as [d Hrun].
      rewrite Hrun, Hd in Hr. simpl in Hr. inversion Hr; subst. reflexivity.
Qed.

Lemma deferred_calls_never_raise_witness :
  let raising : AttemptDependencies :=
    {| normalizeError := fun e _ => Abrupt e; logger := None; reporter := None |} in
  let boom := new_Error "boom" in
  (exists c, result_of (Attempt_retry raising (throws boom) no_retry_options init)
             = Normal (VPromise c)) /\
  (exists c, result_of (Attempt_try raising (returns (VPromise (Abrupt boom)))
                          no_options init)
             = Normal (VPromise c)) /\
  result_of (Attempt_try raising (throws boom) no_options init) = Abrupt boom.
Proof.
  intros raising boom.
  split; [| split].
  - exact (proj1 (deferred_calls_never_raise raising (throws boom))
             no_retry_options init).
  - exact (proj1 (proj2 (deferred_calls_never_raise raising
                           (returns (VPromise (Abrupt boom)))))
             no_options init eq_refl).
  - reflexivity.
Defined.

Lemma handleError_payload_shape deps e options w o w' :
  handleError deps e options w = (Normal o, w') ->
  exists payload,
    o = Attempt_error payload /\
    keys (own_props payload)
    = if default false (client options) then ["client"]
      else ["error"; "normalized"].
Proof.
  unfold handleError, call_dep, bind, emit, lift, ret. intros H.
  destruct (default false (client options));
    repeat (break_match_hyp H; try discriminate);
    inversion H; subst; eexists; split; reflexivity.
Qed.

(** X4. A caught failure is never answered with a Success, and the shape of
    its payload is chosen by the [client] option alone.  Whenever a [try] or
    [retry] that caught a failure returns (or resolves to) a value, that
    value is a failure Outcome whose payload has the key-set [client] when
    [client] is true, and [error], [normalized] when it is false or omitted
    -- for every normalizer, logger and reporter. *)
Theorem caught_failure_payload_keys deps :
  (forall fn options w e o,
      caught_by_try fn w = Some e ->
      result_of (Attempt_try deps fn options w)
      = Normal (if try_defers fn w then VPromise (Normal o) else o) ->
      exists payload,
        o = Attempt_error payload /\
        keys (own_props payload)
        = if default false (client options) then ["client"]
          else ["error"; "normalized"]) /\
  (forall fn options w e o,
      caught_by_retry fn options w = Some e ->
      result_of (Attempt_retry deps fn options w) = Normal (VPromise (Normal o)) ->
      exists payload,
        o = Attempt_error payload /\
        keys (own_props payload)
        = if default false (client (try_options options)) then ["client"]
          else ["error"; "normalized"]).
Proof.
  split.
  - intros fn options w e o Hcaught Hr.
    rewrite (try_catches deps fn options w Hcaught) in Hr.
    destruct (handleError deps e options (advance w)) as [c w'] eqn:Hh.
    assert (c = Normal o) as ->.
    { destruct (try_defers fn w).
      - unfold async in Hr. rewrite Hh in Hr. simpl in Hr.
        inversion Hr; reflexivity.
      - simpl in Hr. exact Hr. }
    eapply handleError_payload_shape; eassumption.
  - intros fn options w e o Hcaught Hr.
    destruct (retry_catches deps fn options w Hcaught) as [w1 [_ Hrun]].
    rewrite Hrun in Hr. unfold async in Hr.
    destruct (handleError deps e (try_options options) w1) as [c w'] eqn:Hh.
    simpl in Hr. inversion Hr; subst c.
    eapply handleError_payload_shape; eassumption.
Qed.

Lemma caught_failure_payload_keys_witness :
  let options := {| report := None; client := Some true; errors := None |} in
  exists payload,
    result_of (Attempt_try attempt (throws (new_Error "boom")) options init)
    = Normal (Attempt_error payload) /\
    keys (own_props payload) = ["client"].
Proof.
  intros options.
  destruct (proj1 (caught_failure_payload_keys attempt)
              (throws (new_Error "boom")) options init
              (new_Error "boom")
              (Attempt_error
                 (VObj [("client",
                         VObj [("message", VStr "boom");
                               ("code", VStr "UNKNOWN_ERROR");
                               ("userMessage", VStr "An error occurred")])]))
              eq_refl eq_refl) as [payload [Ho Hk]].
  exists payload. split; [rewrite <- Ho; reflexivity | exact Hk].
Defined.

(** ** Failures of the dependencies themselves *)

Lemma handleError_normalizer_raises deps e options w x :
  normalizeError deps e (aux_of options) = Abrupt x ->
  handleError deps e options w
  = (Abrupt x, with_trace w [EvNormalize e (aux_of options)]).
Proof.
  intros Hn. unfold handleError. fold (aux_of options).
  unfold bind at 1. unfold bind at 1. unfold emit at 1. unfold lift at 1.
  rewrite Hn. reflexivity.
Qed.

Lemma handleError_logger_raises deps e options w n x :
  normalizeError deps e (aux_of options) = Normal n ->
  default true (report options) = true ->
  logger_call deps e = Some (Abrupt x) ->
  handleError deps e options w
  = (Abrupt x, with_trace w [EvNormalize e (aux_of options); EvLogger e]).
Proof.
  intros Hn Hr Hl. unfold handleError. fold (aux_of options).
  unfold bind at 1. unfold bind at 1. unfold emit at 1. unfold lift at 1.
  rewrite Hn, Hr. cbn [calls trace]. unfold logger_call in Hl.
  unfold bind at 1. unfold bind at 1.
  destruct (logger deps) as [[f | m] |]; [| | discriminate];
    inversion Hl as [Hx]; unfold call_dep, bind, emit, lift, with_trace;
    rewrite Hx; cbn [calls trace]; rewrite <- app_assoc; reflexivity.
Qed.

Lemma handleError_reporter_raises deps e options w n r x :
  normalizeError deps e (aux_of options) = Normal n ->
  default true (report options) = true ->
  logger_completes deps e = true ->
  reporter deps = Some r ->
  r e = Abrupt x ->
  handleError deps e options w
  = (Abrupt x,
     with_trace w (EvNormalize e (aux_of options) ::
                   logger_events deps e ++ [EvReporter e])).
Proof.
  intros Hn Hr Hl Hrep Hx. unfold handleError. fold (aux_of options).
  unfold bind at 1. unfold bind at 1. unfold emit at 1. unfold lift at 1.
  rewrite Hn, Hr, Hrep. cbn [calls trace].
  unfold logger_completes, logger_events in *.
  unfold bind at 1. unfold bind at 1.
  destruct (logger deps) as [[f | m] |];
    unfold call_dep, bind, emit, lift, ret, with_trace; cbn [calls trace];
    rewrite ?Hx;
    repeat match goal with
           | H : completes ?c = true |- context [?c] =>
               destruct c; [| discriminate H]
           end;
    cbn [calls trace]; rewrite <- ?app_assoc; reflexivity.
Qed.

(** How [try] passes on what the failure handler does with the caught
    value: returned or raised at once, or as the settlement of the promise. *)
Lemma try_passes_on deps fn options w e c w' :
  caught_by_try fn w = Some e ->
  handleError deps e options (advance w) = (c, w') ->
  Attempt_try deps fn options w
  = (if try_defers fn w then Normal (VPromise c) else c, w').
Proof.
  intros Hcaught Hh. rewrite (try_catches deps fn options w Hcaught).
  unfold async. rewrite Hh. destruct (try_defers fn w); reflexivity.
Qed.

(** X5. A raising normalizer is not contained.  When the normalizer raises
    [x] on the caught value, the logger and the reporter are not called, a
    [try] whose operation threw raises [x], and a [try] whose operation's
    promise rejected returns a promise rejected with [x]. *)
Theorem normalizer_failure_propagates deps fn options w e x :
  caught_by_try fn w = Some e ->
  normalizeError deps e (aux_of options) = Abrupt x ->
  Attempt_try deps fn options w
  = (if try_defers fn w then Normal (VPromise (Abrupt x)) else Abrupt x,
     with_trace (advance w) [EvNormalize e (aux_of options)]).
Proof.
  intros Hcaught Hn. apply try_passes_on with (e := e); [exact Hcaught |].
  apply handleError_normalizer_raises. exact Hn.
Qed.

Lemma normalizer_failure_propagates_witness :
  Attempt_try attempt (throws unprintable) no_options init
  = (Abrupt (VStr "no string form"),
     {| calls := 1; trace := [EvNormalize unprintable None] |}).
Proof.
  exact (@normalizer_failure_propagates attempt (throws unprintable) no_options
           init unprintable (VStr "no string form") eq_refl eq_refl).
Defined.

(** X6. A raising logger is not contained and stops the reporting step.  With
    [report] true or omitted, when the logger raises [x] on the caught value
    the reporter is not called, a [try] whose operation threw raises [x], and
    a [try] whose operation's promise rejected returns a promise rejected
    with [x]. *)
Theorem logger_failure_propagates deps fn options w e n x :
  caught_by_try fn w = Some e ->
  normalizeError deps e (aux_of options) = Normal n ->
  default true (report options) = true ->
  logger_call deps e = Some (Abrupt x) ->
  Attempt_try deps fn options w
  = (if try_defers fn w then Normal (VPromise (Abrupt x)) else Abrupt x,
     with_trace (advance w) [EvNormalize e (aux_of options); EvLogger e]).
Proof.
  intros Hcaught Hn Hr Hl. apply try_passes_on with (e := e); [exact Hcaught |].
  eapply handleError_logger_raises; eassumption.
Qed.

Lemma logger_failure_propagates_witness :
  let broken : AttemptDependencies :=
    {| normalizeError := normalizeError careful_attempt;
       logger := Some (LoggerObject (fun _ => Abrupt (VStr "disk full")));
       reporter := Some (fun _ => Normal VUndefined) |} in
  let boom := new_Error "boom" in
  Attempt_try broken (throws boom) no_options init
  = (Abrupt (VStr "disk full"),
     {| calls := 1; trace := [EvNormalize boom None; EvLogger boom] |}).
Proof.
  intros broken boom.
  exact (@logger_failure_propagates broken (throws boom) no_options init boom _
           (VStr "disk full") eq_refl eq_refl eq_refl eq_refl).
Defined.

(** X7. A raising reporter is not contained either.  With [report] true or
    omitted and a logger that returns, when the reporter raises [x] on the
    caught value -- after the logger was called -- a [try] whose operation
    threw raises [x], and a [try] whose operation's promise rejected returns
    a promise rejected with [x]; no Outcome is built. *)
Theorem reporter_failure_propagates deps fn options w e n r x :
  caught_by_try fn w = Some e ->
  normalizeError deps e (aux_of options) = Normal n ->
  default true (report options) = true ->
  logger_completes deps e = true ->
  reporter deps = Some r ->
  r e = Abrupt x ->
  Attempt_try deps fn options w
  = (if try_defers fn w then Normal (VPromise (Abrupt x)) else Abrupt x,
     with_trace (advance w)
       (EvNormalize e (aux_of options) :: logger_events deps e ++ [EvReporter e])).
Proof.
  intros Hcaught Hn Hr Hl Hrep Hx.
  apply try_passes_on with (e := e); [exact Hcaught |].
  eapply handleError_reporter_raises; eassumption.
Qed.

Lemma reporter_failure_propagates_witness :
  let broken : AttemptDependencies :=
    {| normalizeError := normalizeError careful_attempt;
       logger := Some (LoggerFunction (fun _ => Normal VUndefined));
       reporter := Some (fun _ => Abrupt (VStr "offline")) |} in
  let boom := new_Error "boom" in
  Attempt_try broken (returns (VPromise (Abrupt boom))) no_options init
  = (Normal (VPromise (Abrupt (VStr "offline"))),
     {| calls := 1;
        trace := [EvNormalize boom None; EvLogger boom; EvReporter boom] |}).
Proof.
  intros broken boom.
  exact (@reporter_failure_propagates broken (returns (VPromise (Abrupt boom)))
           no_options init boom _ _ (VStr "offline")
           eq_refl eq_refl eq_refl eq_refl eq_refl eq_refl).
Defined.

(** ** Reporting, and how [retry] relates to [try] *)

Lemma world_blind_ret A (a : A) : world_blind (ret a).
Proof. intros w1 w2. reflexivity. Qed.

Lemma world_blind_lift A (c : Completion Value A) : world_blind (lift c).
Proof. intros w1 w2. reflexivity. Qed.

Lemma world_blind_emit ev : world_blind (emit ev).
Proof. intros w1 w2. reflexivity. Qed.

Lemma world_blind_bind A B (m : M A) (k : A -> M B) :
  world_blind m -> (forall a, world_blind (k a)) -> world_blind (bind m k).
Proof.
  intros Hm Hk w1 w2. unfold bind. specialize (Hm w1 w2).
  destruct (m w1) as [[a1 | e1] w1'], (m w2) as [[a2 | e2] w2'];
    simpl in Hm; inversion Hm; subst; [apply Hk | reflexivity].
Qed.

Create HintDb blind.

#[local] Hint Resolve world_blind_ret world_blind_lift world_blind_emit
  world_blind_bind : blind.

Lemma world_blind_call_dep ev c : world_blind (call_dep ev c).
Proof. unfold call_dep. auto 6 with blind. Qed.

#[local] Hint Resolve world_blind_call_dep : blind.

(** What the failure handler returns or raises does not depend on the calls
    recorded so far. *)
Lemma handleError_world_blind deps e options : world_blind (handleError deps e options).
Proof.
  unfold handleError.
  repeat first
    [ apply world_blind_bind; [| intros ?]
    | match goal with
      | |- world_blind (if ?b then _ else _) => destruct b
      | |- world_blind (match ?x with _ => _ end) => destruct x
      end
    | solve [auto with blind] ].
Qed.

Lemma handleError_silenced deps e options w :
  reports_quietly deps options e = true ->
  result_of (handleError deps e options w)
  = result_of (handleError deps e (silenced options) w).
Proof.
  intros Hq.
  assert (Hq' : reports_quietly deps (silenced options) e = true) by reflexivity.
  destruct (normalizeError deps e (aux_of options)) as [n | x] eqn:Hn.
  - assert (Hn' : normalizeError deps e (aux_of (silenced options)) = Normal n)
      by exact Hn.
    destruct (default false (client options)) eqn:Hc.
    + rewrite (handleError_client _ _ _ w Hn Hq Hc).
      rewrite (handleError_client _ _ (silenced options) w Hn' Hq' Hc).
      reflexivity.
    + rewrite (handleError_internal _ _ _ w Hn Hq Hc).
      rewrite (handleError_internal _ _ (silenced options) w Hn' Hq' Hc).
      reflexivity.
  - rewrite (handleError_normalizer_raises _ _ options w Hn).
    assert (Hn' : normalizeError deps e (aux_of (silenced options)) = Abrupt x)
      by exact Hn.
    rewrite (handleError_normalizer_raises _ _ (silenced options) w Hn').
    reflexivity.
Qed.

(** X8. Reporting is a side effect only.  When the logger and the reporter
    return on the caught value, [try] returns (or raises) exactly what it
    would with [report: false]: the Outcome never depends on whether the
    failure was reported. *)
Theorem reporting_does_not_change_result deps fn options w :
  (forall e, caught_by_try fn w = Some e ->
             reports_quietly deps options e = true) ->
  result_of (Attempt_try deps fn options w)
  = result_of (Attempt_try deps fn (silenced options) w).
Proof.
  intros Hq. destruct (caught_by_try fn w) as [e |] eqn:Hcaught.
  - rewrite (try_catches deps fn options w Hcaught).
    rewrite (try_catches deps fn (silenced options) w Hcaught).
    destruct (try_defers fn w); rewrite ?async_result;
      rewrite (handleError_silenced deps e options (advance w) (Hq e eq_refl));
      reflexivity.
  - unfold caught_by_try in Hcaught.
    destruct (fn (calls w)) as [v | x] eqn:Hfn; [| discriminate].
    destruct (instanceof_Promise v) eqn:Hp.
    + destruct (await v) as [dv | x] eqn:Ha; [| discriminate].
      rewrite (try_async_fulfilled deps fn options w Hfn Hp Ha).
      rewrite (try_async_fulfilled deps fn (silenced options) w Hfn Hp Ha).
      reflexivity.
    + rewrite (try_sync_return deps fn options w Hfn Hp).
      rewrite (try_sync_return deps fn (silenced options) w Hfn Hp).
      reflexivity.
Qed.

Lemma reporting_does_not_change_result_witness :
  let boom := new_Error "boom" in
  result_of (Attempt_try loud_attempt (throws boom) no_options init)
  = result_of (Attempt_try loud_attempt (throws boom)
                 {| report := Some false; client := None; errors := None |} init) /\
  trace (world_of (Attempt_try loud_attempt (throws boom) no_options init))
  = [EvNormalize boom None; EvLogger boom; EvReporter boom] /\
  trace (world_of (Attempt_try loud_attempt (throws boom)
                     {| report := Some false; client := None; errors := None |}
                     init))
  = [EvNormalize boom None].
Proof.
  intros boom. split; [| split; reflexivity].
  apply (@reporting_does_not_change_result loud_attempt (throws boom)
           no_options init).
  intros e H. inversion H; subst. reflexivity.
Defined.

(** X9. [retry] and [try] build the same answer for the same failure.  When
    the retry collaborator surfaces the failure [e], the promise [retry]
    returns is settled exactly as a [try], under the options that remain
    once [tries] and [retry] are taken out, answers an operation that throws
    [e]: the same Outcome, or the same raised value as rejection. *)
Theorem retry_failure_agrees_with_try deps fn options w e w0 :
  caught_by_retry fn options w = Some e ->
  result_of (Attempt_retry deps fn options w)
  = Normal (VPromise
              (result_of (Attempt_try deps (throws e) (try_options options) w0))).
Proof.
  intros Hcaught.
  destruct (retry_catches deps fn options w Hcaught) as [w1 [_ ->]].
  rewrite async_result.
  rewrite (try_sync_throw deps (throws e) (try_options options) w0 (e := e) eq_refl).
  do 2 f_equal. apply handleError_world_blind.
Qed.

Lemma retry_failure_agrees_with_try_witness :
  let boom := new_Error "always fails" in
  let options := {| report := None; client := Some true; errors := None |} in
  result_of (Attempt_retry attempt (throws boom)
               {| tries := Some 2; retry := None; try_options := options |} init)
  = Normal (VPromise (result_of (Attempt_try attempt (throws boom) options init))).
Proof.
  intros boom options.
  exact (@retry_failure_agrees_with_try attempt (throws boom)
           {| tries := Some 2; retry := None; try_options := options |}
           init boom init eq_refl).
Defined.

(** X10. A [retries] key in the [retry] bag makes [tries] irrelevant: it is
    spread over the count computed from [tries].  With [retry: { retries: m }]
    two calls that differ in [tries] only do the same, and the operation is
    invoked at most [m + 1] times. *)
Theorem bag_retries_overrides_tries deps fn bag m t t' options w :
  bag_retries bag = Some m ->
  Attempt_retry deps fn
    {| tries := t; retry := Some bag; try_options := options |} w
  = Attempt_retry deps fn
      {| tries := t'; retry := Some bag; try_options := options |} w /\
  calls (world_of (Attempt_retry deps fn
                     {| tries := t; retry := Some bag; try_options := options |} w))
  <= calls w + (m + 1).
Proof.
  intros Hm. split.
  - unfold Attempt_retry. cbn [tries retry try_options].
    unfold spread_retry_options. rewrite Hm. reflexivity.
  - rewrite retry_calls. cbn [tries retry try_options].
    unfold spread_retry_options. rewrite Hm. cbn [default retries].
    match goal with
    | |- context [pRetry_attempts fn ?cfg 0 m w] =>
        pose proof (pRetry_attempts_world fn cfg m 0 w) as [_ Hc]
    end.
    lia.
Qed.

Lemma bag_retries_overrides_tries_witness :
  let bag := {| bag_retries := Some 1; shouldRetry := None; signal := None |} in
  let boom := new_Error "fail" in
  Attempt_retry attempt (throws boom)
    {| tries := Some 7; retry := Some bag; try_options := no_options |} init
  = Attempt_retry attempt (throws boom)
      {| tries := None; retry := Some bag; try_options := no_options |} init /\
  calls (world_of (Attempt_retry attempt (throws boom)
                     {| tries := Some 7; retry := Some bag;
                        try_options := no_options |} init)) = 2.
Proof.
  intros bag boom. split; [| reflexivity].
  exact (proj1 (@bag_retries_overrides_tries attempt (throws boom) bag 1
                  (Some 7) None no_options init eq_refl)).
Defined.

Lemma pRetry_attempts_first_success fn cfg (k : nat) :
  cfg_shouldRetry cfg = None -> cfg_signal cfg = None ->
  forall left made w d,
    k <= left ->
    (forall i, i < k -> completes (attempt_result fn (calls w + i)) = false) ->
    attempt_result fn (calls w + k) = Normal d ->
    pRetry_attempts fn cfg made left w
    = (Normal d, {| calls := calls w + k + 1; trace := trace w |}).
Proof.
  intros Hp Hs. induction k as [| k IH]; intros left made w d Hle Hfail Hok;
    rewrite pRetry_attempts_step, Hs.
  - rewrite Nat.add_0_r in Hok. rewrite Hok. unfold advance.
    replace (calls w + 0 + 1) with (S (calls w)) by lia. reflexivity.
  - pose proof (Hfail 0 (Nat.lt_0_succ k)) as H0. rewrite Nat.add_0_r in H0.
    destruct (attempt_result fn (calls w)) as [d0 | e]; [discriminate |].
    destruct left as [| left]; [lia |].
    rewrite Hp. cbn [default].
    rewrite (IH left (S made) (advance w) d).
    + cbn [advance calls trace].
      replace (S (calls w) + k + 1) with (calls w + S k + 1) by lia. reflexivity.
    + lia.
    + intros i Hi. cbn [advance calls].
      replace (S (calls w) + i) with (calls w + S i) by lia.
      apply Hfail. lia.
    + cbn [advance calls].
      replace (S (calls w) + k) with (calls w + S k) by lia. exact Hok.
Qed.

(** X11. [retry] stops at the first success.  Let the [retry] bag carry no
    [retries] count, abort predicate or signal.  If the operation fails on
    its first [k] invocations, with [k] at most [tries] (3 when omitted),
    and then yields [d], then [retry] invokes it exactly [k + 1] times and
    resolves to the Success Outcome of [d]; the [k] failures are neither
    normalized, logged nor reported. *)
Theorem retry_stops_at_first_success deps fn options w k d :
  no_retries_key options ->
  no_early_stop options ->
  k <= default 3 (tries options) ->
  (forall i, i < k -> completes (attempt_result fn (calls w + i)) = false) ->
  attempt_result fn (calls w + k) = Normal d ->
  Attempt_retry deps fn options w
  = (Normal (VPromise (Normal (Attempt_ok d))),
     {| calls := calls w + k + 1; trace := trace w |}).
Proof.
  intros Hkey Hstop Hle Hfail Hok.
  destruct (spread_without_predicate options Hstop) as [Hpred Hsig].
  apply spread_without_signal in Hsig.
  apply retry_fulfilled.
  apply pRetry_attempts_first_success; try assumption.
  unfold retry_config. rewrite (spread_without_retries_key options Hkey).
  exact Hle.
Qed.

Lemma retry_stops_at_first_success_witness :
  let fn : Operation :=
    fun k => if Nat.ltb k 2 then Abrupt (new_Error "retry me")
             else Normal (VStr "success") in
  Attempt_retry loud_attempt fn
    {| tries := Some 3; retry := None; try_options := no_options |} init
  = (Normal (VPromise (Normal (Attempt_ok (VStr "success")))),
     {| calls := 3; trace := [] |}).
Proof.
  intros fn.
  refine (@retry_stops_at_first_success loud_attempt fn
            {| tries := Some 3; retry := None; try_options := no_options |}
            init 2 (VStr "success") I I _ _ eq_refl).
  - simpl. lia.
  - intros i Hi. destruct i as [| [| i]]; [reflexivity | reflexivity | lia].
Defined.

(** X12. [retry] without retries is the deferred form of [try].  With
    [tries: 0] and no [retry] bag, [retry] returns the promise settled by
    what [try] does, under the remaining options, with the operation whose
    result is awaited: the same Outcome or raised value, the same single
    invocation, the same dependency calls. *)
Theorem retry_without_retries_is_deferred_try deps fn options w :
  Attempt_retry deps fn
    {| tries := Some 0; retry := None; try_options := options |} w
  = async (Attempt_try deps (fun k => attempt_result fn k) options) w.
Proof.
  set (ropts := {| tries := Some 0; retry := None; try_options := options |}).
  assert (Hstep : pRetry_attempts fn (retry_config ropts) 0
                    (retries (retry_config ropts)) w
                  = (attempt_result fn (calls w), advance w)).
  { rewrite pRetry_attempts_step. cbn.
    destruct (attempt_result fn (calls w)); reflexivity. }
  destruct (attempt_result fn (calls w)) as [d | e] eqn:Hr.
  - rewrite (retry_fulfilled deps fn ropts w Hstep).
    assert (Hd : thenable d = false).
    { unfold attempt_result in Hr. destruct (fn (calls w)) as [v | x];
        [eapply await_not_promise; exact Hr | discriminate]. }
    assert (Hp : instanceof_Promise d = false) by (destruct d; simpl in *; congruence).
    unfold async.
    rewrite (try_sync_return deps (fun k => attempt_result fn k) options w Hr Hp).
    reflexivity.
  - rewrite (retry_rejected deps fn ropts w Hstep).
    unfold async.
    rewrite (try_sync_throw deps (fun k => attempt_result fn k) options w Hr).
    reflexivity.
Qed.

(** ** The default instance of [src/index.ts] *)

Lemma defaultNormalizer_inv e aux n :
  defaultNormalizer e aux = Normal n ->
  exists m,
    n = SimpleError m /\
    (error_message e = Some m \/
     (instanceof_Error e = false /\ js_String e = Normal m)).
Proof.
  unfold defaultNormalizer.
  destruct e; cbn [error_message instanceof_Error];
    try (match goal with
         | |- context [js_String ?v] =>
             destruct (js_String v) as [s0 | x] eqn:Hs
         end;
         [| discriminate];
         intros H; inversion H; subst; exists s0; split;
         [reflexivity | right; split; reflexivity]).
  intros H; inversion H; subst. exists message.
  split; [reflexivity | left; reflexivity].
Qed.

Lemma defaultNormalizer_printable e aux :
  printable e = true -> exists n, defaultNormalizer e aux = Normal n.
Proof.
  unfold printable, defaultNormalizer. intros Hp.
  destruct e; cbn [instanceof_Error orb] in Hp;
    try (eexists; reflexivity);
    match goal with
    | |- context [js_String ?v] =>
        destruct (js_String v) as [s0 | x];
        [eexists; reflexivity | discriminate Hp]
    end.
Qed.

(** X13. [defaultNormalizer] raises exactly when the caught value is not an
    [Error] instance and [String] of it throws, and then raises what
    [String] threw.  Otherwise it returns a [SimpleError] whose message is
    the error's message, or the string form of a value that is not an
    [Error]; the code is always [UNKNOWN_ERROR].  Its second argument is
    ignored: the [errors] classifier has no effect on the default instance. *)
Theorem defaultNormalizer_behaviour e aux :
  completes (defaultNormalizer e aux) = printable e /\
  (forall aux', defaultNormalizer e aux' = defaultNormalizer e aux) /\
  (forall n,
      defaultNormalizer e aux = Normal n ->
      exists m,
        n = SimpleError m /\
        get "code" (own_props n) = Some (VStr "UNKNOWN_ERROR") /\
        (error_message e = Some m \/
         (instanceof_Error e = false /\ js_String e = Normal m))) /\
  (forall x,
      defaultNormalizer e aux = Abrupt x ->
      instanceof_Error e = false /\ js_String e = Abrupt x).
Proof.
  split; [| split; [| split]].
  - unfold printable, defaultNormalizer.
    destruct e; cbn [instanceof_Error orb]; try reflexivity;
      match goal with
      | |- context [js_String ?v] => destruct (js_String v); reflexivity
      end.
  - intros aux'. reflexivity.
  - intros n Hn. destruct (defaultNormalizer_inv _ _ Hn) as [m [-> Hm]].
    exists m. repeat split. exact Hm.
  - unfold defaultNormalizer.
    destruct e; cbn [instanceof_Error]; try discriminate;
      match goal with
      | |- context [js_String ?v] =>
          destruct (js_String v) as [s0 | y] eqn:Hs
      end;
      try discriminate;
      intros x H; inversion H; subst; split; reflexivity.
Qed.

Lemma defaultNormalizer_behaviour_witness :
  defaultNormalizer (VNum 404)
    (Some {| when := fun _ => Normal (VStr "VALIDATION_ERROR") |})
  = Normal (SimpleError "404") /\
  get "code" (own_props (SimpleError "404")) = Some (VStr "UNKNOWN_ERROR") /\
  defaultNormalizer unprintable None = Abrupt (VStr "no string form").
Proof.
  destruct (defaultNormalizer_behaviour (VNum 404) None)
    as [_ [Haux [Hret _]]].
  destruct (Hret (SimpleError "404") eq_refl) as [m [Hm [Hcode _]]].
  destruct (defaultNormalizer_behaviour unprintable None) as [_ [_ [_ Hraise]]].
  destruct (Hraise (VStr "no string form") eq_refl) as [_ Hs].
  split; [| split].
  - rewrite Haux. reflexivity.
  - exact Hcode.
  - reflexivity.
Defined.

(** X14. The client projection of the default normalizer is the normalized
    error without its [toClient] method.  For every [SimpleError] that
    [defaultNormalizer] returns, [toClient()] returns an object with exactly
    the keys [message], [code], [userMessage], holding the same values; it
    is plain JSON data, and it is what the normalized error itself becomes
    through JSON. *)
Theorem default_projection_is_normalized_without_toClient e aux n :
  defaultNormalizer e aux = Normal n ->
  exists c,
    call_toClient n = Normal c /\
    keys (own_props n) = ["message"; "code"; "userMessage"; "toClient"] /\
    keys (own_props c) = ["message"; "code"; "userMessage"] /\
    get "message" (own_props c) = get "message" (own_props n) /\
    get "code" (own_props c) = get "code" (own_props n) /\
    get "userMessage" (own_props c) = get "userMessage" (own_props n) /\
    json_plain c = true /\
    JSON_roundtrip n = Normal (Some c).
Proof.
  intros Hn. destruct (defaultNormalizer_inv _ _ Hn) as [m [-> _]].
  exists (SimpleClientError m). repeat split.
Qed.

Lemma default_projection_is_normalized_without_toClient_witness :
  exists n,
    defaultNormalizer (VStr "plain string") None = Normal n /\
    call_toClient n = Normal (SimpleClientError "plain string") /\
    JSON_roundtrip n = Normal (Some (SimpleClientError "plain string")).
Proof.
  destruct (@default_projection_is_normalized_without_toClient
              (VStr "plain string") None (SimpleError "plain string") eq_refl)
    as [c [Hc [_ [_ [_ [_ [_ [_ Hj]]]]]]]].
  exists (SimpleError "plain string").
  split; [reflexivity |].
  assert (c = SimpleClientError "plain string") as -> by (inversion Hc; reflexivity).
  split; [exact Hc | exact Hj].
Defined.

Lemma attempt_reports_quietly options e :
  reports_quietly attempt options e = true.
Proof. unfold reports_quietly. destruct (default true (report options)); reflexivity. Qed.



(** X16. A ClientFailure of the default instance passes through JSON
    unchanged but for the [data] slot.  For a printable caught value and
    [client: true], serializing the Outcome that [attempt.try] builds and
    parsing it back gives [{ ok: false, error: payload }] with the very
    payload of the Outcome. *)
Theorem default_client_failure_survives_json fn options w e :
  caught_by_try fn w = Some e ->
  printable e = true ->
  client options = Some true ->
  exists payload,
    result_of (Attempt_try attempt fn options w)
    = Normal (if try_defers fn w then VPromise (Normal (Attempt_error payload))
              else Attempt_error payload) /\
    keys (own_props payload) = ["client"] /\
    JSON_roundtrip (Attempt_error payload)
    = Normal (Some (VObj [("ok", VBool false); ("error", payload)])).
Proof.
  intros Hcaught Hp Hc.
  destruct (defaultNormalizer_printable e (aux_of options) Hp) as [n Hn].
  destruct (defaultNormalizer_inv _ _ Hn) as [m [-> Hm]].
  assert (Hn' : normalizeError attempt e (aux_of options) = Normal (SimpleError m))
    by exact Hn.
  pose proof (attempt_reports_quietly options e) as Hq.
  apply client_default in Hc.
  exists (VObj [("client", SimpleClientError m)]).
  split; [| split; [reflexivity |]].
  - rewrite (try_passes_on attempt fn options w Hcaught
               (handleError_client _ _ _ (advance w) Hn' Hq Hc)).
    destruct (try_defers fn w); reflexivity.
  - apply roundtrip_client_payload. apply roundtrip_plain. reflexivity.
Qed.

Lemma default_client_failure_survives_json_witness :
  let options := {| report := None; client := Some true; errors := None |} in
  let payload := VObj [("client", SimpleClientError "serialization test")] in
  result_of (Attempt_try attempt (throws (new_Error "serialization test"))
               options init)
  = Normal (Attempt_error payload) /\
  JSON_roundtrip (Attempt_error payload)
  = Normal (Some (VObj [("ok", VBool false); ("error", payload)])).
Proof.
  intros options payload.
  destruct (@default_client_failure_survives_json
              (throws (new_Error "serialization test")) options init
              (new_Error "serialization test") eq_refl eq_refl eq_refl)
    as [p [Hr [_ Hj]]].
  assert (p = payload) as ->.
  { simpl in Hr. inversion Hr. reflexivity. }
  split; [exact Hr | exact Hj].
Defined.

(** ** Client projection, shape symmetry and call order *)

Lemma part_of_primitive x v :
  is_primitive v = true -> part_of x v -> x = v.
Proof.
  intros Hv Hpart. destruct Hpart; try discriminate. reflexivity.
Qed.

(** Every part of a ClientFailure Outcome is a part of the wrapper or a part
    of the projection it wraps. *)
Lemma parts_of_client_failure x c :
  part_of x (Attempt_error (VObj [("client", c)])) ->
  x = Attempt_error (VObj [("client", c)]) \/
  x = VBool false \/
  x = VUndefined \/
  x = VObj [("client", c)] \/
  part_of x c.
Proof.
  intros H. inversion H as [| | ps k y Hin Hy | | | | | | |]; subst.
  - left. reflexivity.
  - destruct Hin as [E | [E | [E | []]]]; inversion E; subst.
    + right. left. apply part_of_primitive; [reflexivity | exact Hy].
    + inversion Hy as [| | ps' k' y' Hin' Hy' | | | | | | |]; subst.
      * right. right. right. left. reflexivity.
      * destruct Hin' as [E' | []]. inversion E'; subst.
        right. right. right. right. exact Hy'.
    + right. right. left. apply part_of_primitive; [reflexivity | exact Hy].
Qed.

(** C2, as the code has it.  With [client: true], whatever value [e] was
    thrown or rejected with: provided the normalizer returns a normalized
    error [n], the reporting step returns and [n.toClient()] returns [c], a
    [try] or [retry] call that catches [e] answers with the failure Outcome
    whose payload is exactly [{ client: c }].  The payload has the single
    key [client], bound to the projection, and neither an [error] nor a
    [normalized] key.  Every part of the returned value is the Outcome
    itself, its [ok: false], its [data: undefined], the one-key payload, or a
    part of [c]: the caught value and the normalized error are not stored in
    it, and can be found in it only where the projection itself holds
    them. *)
Theorem client_failure_holds_projection_only deps options e n c :
  client options = Some true ->
  normalizeError deps e (aux_of options) = Normal n ->
  reports_quietly deps options e = true ->
  call_toClient n = Normal c ->
  let payload := VObj [("client", c)] in
  (forall fn w,
      caught_by_try fn w = Some e ->
      result_of (Attempt_try deps fn options w)
      = Normal (if try_defers fn w
                then VPromise (Normal (Attempt_error payload))
                else Attempt_error payload)) /\
  (forall fn retry_options w,
      try_options retry_options = options ->
      caught_by_retry fn retry_options w = Some e ->
      result_of (Attempt_retry deps fn retry_options w)
      = Normal (VPromise (Normal (Attempt_error payload)))) /\
  get "ok" (own_props (Attempt_error payload)) = Some (VBool false) /\
  get "error" (own_props (Attempt_error payload)) = Some payload /\
  get "data" (own_props (Attempt_error payload)) = Some VUndefined /\
  keys (own_props payload) = ["client"] /\
  get "client" (own_props payload) = Some c /\
  get "error" (own_props payload) = None /\
  get "normalized" (own_props payload) = None /\
  (forall x,
      part_of x (Attempt_error payload) ->
      x = Attempt_error payload \/ x = VBool false \/ x = VUndefined \/
      x = payload \/ part_of x c).
Proof.
  intros Hc Hn Hq Hp payload. apply client_default in Hc.
  split; [| split; [| repeat split]].
  - intros fn w Hcaught. rewrite (try_catches deps fn options w Hcaught).
    unfold async. destruct (try_defers fn w);
      rewrite (handleError_client _ _ _ _ Hn Hq Hc), Hp; reflexivity.
  - intros fn ropts w Hopts Hcaught.
    destruct (retry_catches deps fn ropts w Hcaught) as [w1 [_ ->]].
    rewrite Hopts. unfold async.
    rewrite (handleError_client _ _ _ _ Hn Hq Hc), Hp. reflexivity.
  - intros x Hx. apply parts_of_client_failure. exact Hx.
Qed.

Lemma client_failure_holds_projection_only_witness :
  let c := SimpleClientError "retry error" in
  let options := {| report := None; client := Some true; errors := None |} in
  let boom := new_Error "retry error" in
  result_of (Attempt_try attempt (throws boom) options init)
  = Normal (Attempt_error (VObj [("client", c)])) /\
  result_of (Attempt_retry attempt (throws boom)
               {| tries := Some 1; retry := None; try_options := options |} init)
  = Normal (VPromise (Normal (Attempt_error (VObj [("client", c)])))) /\
  ~ part_of boom (Attempt_error (VObj [("client", c)])).
Proof.
  intros c options boom.
  pose proof (@client_failure_holds_projection_only attempt options boom
                (SimpleError "retry error") c eq_refl eq_refl eq_refl eq_refl)
    as [Htry [Hretry [_ [_ [_ [_ [_ [_ [_ Hparts]]]]]]]]].
  split; [| split].
  - exact (Htry (throws boom) init eq_refl).
  - exact (Hretry (throws boom)
             {| tries := Some 1; retry := None; try_options := options |}
             init eq_refl eq_refl).
  - intros Hpart.
    destruct (Hparts boom Hpart) as [H | [H | [H | [H | H]]]];
      try discriminate H.
    inversion H as [| | ps k y Hin Hy | | | | | | |]; subst.
    destruct Hin as [E | [E | [E | []]]]; inversion E; subst;
      apply part_of_primitive in Hy; try reflexivity; discriminate Hy.
Defined.

(** C2 as stated fails.  With [client: true] a thrown value does not always
    get a failure Outcome: the default instance raises for a thrown object
    whose string conversion throws, and an instance whose normalized error
    has no [toClient] raises a [TypeError].  And the caught value can be in
    the returned value: when the projection returns it, it is the value of
    the [client] key. *)
Lemma client_failure_holds_projection_only_counterexample :
  let options := {| report := None; client := Some true; errors := None |} in
  let secret := new_Error "secret" in
  result_of (Attempt_try attempt (throws unprintable) options init)
  = Abrupt (VStr "no string form") /\
  result_of (Attempt_try bare_attempt (throws secret) options init)
  = Abrupt (TypeError "normalized.toClient is not a function") /\
  deps_never_raise echo_attempt /\
  result_of (Attempt_try echo_attempt (throws secret) options init)
  = Normal (Attempt_error (VObj [("client", secret)])) /\
  part_of secret (Attempt_error (VObj [("client", secret)])).
Proof.
  intros options secret.
  split; [reflexivity |]. split; [reflexivity |].
  split; [repeat split; intros; reflexivity |].
  split; [reflexivity |].
  apply part_prop with (k := "error") (y := VObj [("client", secret)]);
    [right; left; reflexivity |].
  apply part_prop with (k := "client") (y := secret);
    [left; reflexivity | apply part_self].
Qed.

(** C5, as the code has it.  Shape symmetry of [try].  When the operation
    returns [v], the shape of the answer is decided by [v instanceof Promise]
    alone.  A value that is not a native promise, [null] and [undefined]
    included, gives the Success Outcome directly, with [data] equal to [v].
    A native promise gives a promise, settled as the synchronous [try] of
    an operation throwing the rejection value would return.  It resolves to
    the Success Outcome of the value the promise fulfils with.  When the
    promise rejects with [e], and the normalizer and the reporting step
    return on [e] and so does the handler's last step, it resolves to the
    failure Outcome that the synchronous [try] returns for an operation
    throwing [e], whose payload has the keys [client], or [error] and
    [normalized], by the [client] option. *)
Theorem try_shape_symmetry deps fn options w v :
  fn (calls w) = Normal v ->
  (instanceof_Promise v = false ->
   Attempt_try deps fn options w = (Normal (Attempt_ok v), advance w)) /\
  (forall data,
      instanceof_Promise v = true ->
      await v = Normal data ->
      Attempt_try deps fn options w
      = (Normal (VPromise (Normal (Attempt_ok data))), advance w)) /\
  (forall e,
      instanceof_Promise v = true ->
      await v = Abrupt e ->
      Attempt_try deps fn options w
      = async (Attempt_try deps (throws e) options) w) /\
  (forall e,
      instanceof_Promise v = true ->
      await v = Abrupt e ->
      completes (normalizeError deps e (aux_of options)) = true ->
      reports_quietly deps options e = true ->
      payload_completes deps options e = true ->
      exists payload,
        result_of (Attempt_try deps fn options w)
        = Normal (VPromise (Normal (Attempt_error payload))) /\
        result_of (Attempt_try deps (throws e) options w)
        = Normal (Attempt_error payload) /\
        get "ok" (own_props (Attempt_error payload)) = Some (VBool false) /\
        keys (own_props payload)
        = if default false (client options) then ["client"]
          else ["error"; "normalized"]) /\
  get "ok" (own_props (Attempt_ok v)) = Some (VBool true) /\
  get "data" (own_props (Attempt_ok v)) = Some v.
Proof.
  intros Hfn.
  assert (Hsym : forall e, instanceof_Promise v = true -> await v = Abrupt e ->
                           Attempt_try deps fn options w
                           = async (Attempt_try deps (throws e) options) w).
  { intros e Hp Ha. rewrite (try_async_rejected _ _ _ _ Hfn Hp Ha).
    unfold async. rewrite (try_sync_throw deps (throws e) options w (e := e));
      reflexivity. }
  split; [| split; [| split; [exact Hsym | split; [| split; reflexivity]]]].
  - intros Hp. apply try_sync_return; assumption.
  - intros data Hp Ha. apply try_async_fulfilled with (v := v); assumption.
  - intros e Hp Ha Hn Hq Hpay.
    destruct (normalizeError deps e (aux_of options)) as [n | x] eqn:Hnorm;
      [| discriminate].
    unfold payload_completes in Hpay. rewrite Hnorm in Hpay.
    assert (Hsync : Attempt_try deps (throws e) options w
                    = handleError deps e options (advance w))
      by (apply try_sync_throw; reflexivity).
    rewrite (Hsym e Hp Ha), async_result, Hsync.
    destruct (default false (client options)) eqn:Hc.
    + rewrite (handleError_client _ _ _ (advance w) Hnorm Hq Hc).
      destruct (call_toClient n) as [c | x]; [| discriminate].
      exists (VObj [("client", c)]). repeat split.
    + rewrite (handleError_internal _ _ _ (advance w) Hnorm Hq Hc).
      destruct (original_error e) as [E | x]; [| discriminate].
      exists (VObj [("error", E); ("normalized", n)]). repeat split.
Qed.

Lemma try_shape_symmetry_witness :
  let boom := new_Error "rejected" in
  Attempt_try careful_attempt (returns VNull) no_options init
  = (Normal (Attempt_ok VNull), advance init) /\
  Attempt_try careful_attempt (returns (VPromise (Normal (VNum 42)))) no_options init
  = (Normal (VPromise (Normal (Attempt_ok (VNum 42)))), advance init) /\
  exists payload,
    result_of (Attempt_try careful_attempt (returns (VPromise (Abrupt boom)))
                 no_options init)
    = Normal (VPromise (Normal (Attempt_error payload))) /\
    result_of (Attempt_try careful_attempt (throws boom) no_options init)
    = Normal (Attempt_error payload) /\
    keys (own_props payload) = ["error"; "normalized"].
Proof.
  intros boom. split; [| split].
  - exact (proj1 (@try_shape_symmetry careful_attempt (returns VNull) no_options
                    init VNull eq_refl) eq_refl).
  - exact (proj1 (proj2 (@try_shape_symmetry careful_attempt
                           (returns (VPromise (Normal (VNum 42)))) no_options init
                           (VPromise (Normal (VNum 42))) eq_refl))
             (VNum 42) eq_refl eq_refl).
  - destruct (proj1 (proj2 (proj2 (proj2
                (@try_shape_symmetry careful_attempt
                   (returns (VPromise (Abrupt boom))) no_options init
                   (VPromise (Abrupt boom)) eq_refl))))
                boom eq_refl eq_refl eq_refl eq_refl eq_refl)
      as [payload [Hdeferred [Hsync [_ Hkeys]]]].
    exists payload. split; [exact Hdeferred | split; [exact Hsync | exact Hkeys]].
Defined.

(** C5 as stated fails: the promise [try] returns for an operation whose
    promise rejects need not resolve to an Outcome.  With a normalizer,
    logger and reporter that never raise, a normalized error without
    [toClient] and [client: true], it is rejected with a [TypeError]. *)
Lemma try_shape_symmetry_counterexample :
  let options := {| report := None; client := Some true; errors := None |} in
  let boom := new_Error "boom" in
  deps_never_raise bare_attempt /\
  instanceof_Promise (VPromise (Abrupt boom)) = true /\
  result_of (Attempt_try bare_attempt (returns (VPromise (Abrupt boom)))
               options init)
  = Normal (VPromise (Abrupt (TypeError "normalized.toClient is not a function"))).
Proof.
  intros options boom.
  split; [repeat split; intros; reflexivity | split; reflexivity].
Qed.

Lemma logger_call_completes deps e r :
  logger_call deps e = Some (Normal r) -> logger_completes deps e = true.
Proof.
  unfold logger_call, logger_completes.
  destruct (logger deps) as [[f | m] |]; try discriminate;
    intros H; inversion H as [Hr]; rewrite Hr; reflexivity.
Qed.

Lemma logger_call_none deps e :
  logger_call deps e = None -> logger deps = None.
Proof.
  unfold logger_call. destruct (logger deps) as [[f | m] |];
    [discriminate | discriminate | reflexivity].
Qed.

Lemma logger_call_some deps e c :
  logger_call deps e = Some c -> logger_events deps e = [EvLogger e].
Proof.
  unfold logger_call, logger_events.
  destruct (logger deps) as [[f | m] |]; [reflexivity | reflexivity | discriminate].
Qed.

(** The dependency calls of one run of the failure handler, whatever the
    dependencies do. *)
Lemma handleError_events deps e options w :
  trace (world_of (handleError deps e options w))
  = (trace w ++ handler_events deps options e)%list.
Proof.
  unfold handler_events.
  destruct (normalizeError deps e (aux_of options)) as [n | x] eqn:Hn;
    [| rewrite (handleError_normalizer_raises _ _ options w Hn); reflexivity].
  assert (Hquiet : reports_quietly deps options e = true ->
                   trace (world_of (handleError deps e options w))
                   = (trace w ++ EvNormalize e (aux_of options)
                                 :: reported deps options e)%list).
  { intros Hq. destruct (default false (client options)) eqn:Hc.
    - rewrite (handleError_client _ _ _ w Hn Hq Hc). reflexivity.
    - rewrite (handleError_internal _ _ _ w Hn Hq Hc). reflexivity. }
  assert (Hcases :
            default true (report options) = false /\ report options = Some false \/
            default true (report options) = true /\
            (report options = Some true \/ report options = None)).
  { destruct (report options) as [[|] |]; [right | left | right];
      split; try reflexivity; [left | right]; reflexivity. }
  destruct Hcases as [[Hd Hr] | [Hd Hr]].
  - rewrite Hr. rewrite Hquiet.
    + unfold reported. rewrite Hd. reflexivity.
    + unfold reports_quietly. rewrite Hd. reflexivity.
  - assert (Hgoal :
              trace (world_of (handleError deps e options w))
              = (trace w ++
                 EvNormalize e (aux_of options) ::
                 match logger_call deps e with
                 | None =>
                     match reporter deps with
                     | Some _ => [EvReporter e]
                     | None => []
                     end
                 | Some (Normal _) =>
                     EvLogger e ::
                     match reporter deps with
                     | Some _ => [EvReporter e]
                     | None => []
                     end
                 | Some (Abrupt _) => [EvLogger e]
                 end)%list).
    { destruct (logger_call deps e) as [[r | x] |] eqn:Hl.
      - pose proof (logger_call_completes _ _ Hl) as Hlc.
        pose proof (logger_call_some _ _ Hl) as Hle.
        destruct (reporter deps) as [rep |] eqn:Hrep.
        + destruct (rep e) as [rv | x] eqn:Hre.
          * rewrite Hquiet.
            -- unfold reported. rewrite Hd, Hrep.
               unfold logger_events in Hle. rewrite Hle. reflexivity.
            -- unfold reports_quietly, reporter_completes.
               rewrite Hd, Hlc, Hrep, Hre. reflexivity.
          * rewrite (handleError_reporter_raises _ _ _ w Hn Hd Hlc Hrep Hre).
            unfold with_trace. cbn [world_of snd trace]. rewrite Hle. reflexivity.
        + rewrite Hquiet.
          * unfold reported. rewrite Hd, Hrep.
            unfold logger_events in Hle. rewrite Hle. reflexivity.
          * unfold reports_quietly, reporter_completes.
            rewrite Hd, Hlc, Hrep. reflexivity.
      - rewrite (handleError_logger_raises _ _ _ w Hn Hd Hl). reflexivity.
      - pose proof (logger_call_none _ _ Hl) as Hnone.
        assert (Hlc : logger_completes deps e = true)
          by (unfold logger_completes; rewrite Hnone; reflexivity).
        destruct (reporter deps) as [rep |] eqn:Hrep.
        + destruct (rep e) as [rv | x] eqn:Hre.
          * rewrite Hquiet.
            -- unfold reported. rewrite Hd, Hrep, Hnone. reflexivity.
            -- unfold reports_quietly, reporter_completes.
               rewrite Hd, Hlc, Hrep, Hre. reflexivity.
          * rewrite (handleError_reporter_raises _ _ _ w Hn Hd Hlc Hrep Hre).
            unfold with_trace, logger_events. cbn [world_of snd trace].
            rewrite Hnone. reflexivity.
        + rewrite Hquiet.
          * unfold reported. rewrite Hd, Hrep, Hnone. reflexivity.
          * unfold reports_quietly, reporter_completes.
            rewrite Hd, Hlc, Hrep. reflexivity. }
    destruct Hr as [Hr | Hr]; rewrite Hr; exact Hgoal.
Qed.

(** C7, as the code has it.  For every failure [e] caught by [try] or handed
    over by the retry collaborator, and for every normalizer, logger and
    reporter: the normalizer is called first, with the raw [e] and with
    [{ when: errors }] exactly when [errors] was supplied.  When the
    normalizer raises, nothing else is called.  When it returns and [report]
    is false, nothing else is called.  When it returns and [report] is true
    or omitted, the logger (if any) is called with the raw [e], and after it
    the reporter (if any) with the same [e] -- unless the logger raised, in
    which case the reporter is not called. *)
Theorem handler_call_order deps options e :
  let aux :=
    match errors options with
    | Some classifier => Some {| when := classifier |}
    | None => None
    end in
  let reporter_calls :=
    match reporter deps with
    | Some _ => [EvReporter e]
    | None => []
    end in
  let events :=
    EvNormalize e aux ::
    match normalizeError deps e aux with
    | Abrupt _ => []
    | Normal _ =>
        match report options with
        | Some false => []
        | _ =>
            match logger_call deps e with
            | None => reporter_calls
            | Some (Normal _) => EvLogger e :: reporter_calls
            | Some (Abrupt _) => [EvLogger e]
            end
        end
    end in
  (forall fn w,
      caught_by_try fn w = Some e ->
      trace (world_of (Attempt_try deps fn options w))
      = (trace w ++ events)%list) /\
  (forall fn retry_options w,
      try_options retry_options = options ->
      caught_by_retry fn retry_options w = Some e ->
      trace (world_of (Attempt_retry deps fn retry_options w))
      = (trace w ++ events)%list).
Proof.
  intros aux reporter_calls events.
  assert (Hev : handler_events deps options e = events) by reflexivity.
  split.
  - intros fn w Hcaught. rewrite (try_catches deps fn options w Hcaught).
    rewrite <- Hev.
    destruct (try_defers fn w); [rewrite async_trace |];
      exact (handleError_events deps e options (advance w)).
  - intros fn ropts w Hopts Hcaught.
    destruct (retry_catches deps fn ropts w Hcaught) as [w1 [Ht ->]].
    rewrite Hopts, <- Ht, <- Hev, async_trace.
    apply handleError_events.
Qed.

Lemma handler_call_order_witness :
  let e := new_Error "specific error" in
  let classifier : Classifier := fun _ => Normal (VStr "VALIDATION_ERROR") in
  let options := {| report := None; client := None; errors := Some classifier |} in
  trace (world_of (Attempt_try loud_attempt (throws e) options init))
  = [EvNormalize e (Some {| when := classifier |}); EvLogger e; EvReporter e] /\
  trace (world_of (Attempt_retry loud_attempt (throws e)
                     {| tries := Some 1; retry := None; try_options := options |}
                     init))
  = [EvNormalize e (Some {| when := classifier |}); EvLogger e; EvReporter e] /\
  trace (world_of (Attempt_try loud_attempt (throws e)
                     {| report := Some false; client := None; errors := None |}
                     init))
  = [EvNormalize e None].
Proof.
  intros e classifier options.
  destruct (@handler_call_order loud_attempt options e) as [Htry Hretry].
  destruct (@handler_call_order loud_attempt
              {| report := Some false; client := None; errors := None |} e)
    as [Hsilent _].
  split; [| split].
  - exact (Htry (throws e) init eq_refl).
  - exact (Hretry (throws e)
             {| tries := Some 1; retry := None; try_options := options |}
             init eq_refl eq_refl).
  - exact (Hsilent (throws e) init eq_refl).
Defined.

(** C7 as stated fails: with [report] true the reporter is not always
    called after the logger.  When the logger raises, the reporter that was
    supplied is never called; when the normalizer raises, neither the
    logger nor the reporter is. *)
Lemma handler_call_order_counterexample :
  let broken_logger : AttemptDependencies :=
    {| normalizeError := normalizeError careful_attempt;
       logger := Some (LoggerObject (fun _ => Abrupt (VStr "disk full")));
       reporter := Some (fun _ => Normal VUndefined) |} in
  let broken_normalizer : AttemptDependencies :=
    {| normalizeError := fun e _ => Abrupt (VStr "cannot normalize");
       logger := Some (LoggerFunction (fun _ => Normal VUndefined));
       reporter := Some (fun _ => Normal VUndefined) |} in
  let boom := new_Error "boom" in
  default true (report no_options) = true /\
  trace (world_of (Attempt_try broken_logger (throws boom) no_options init))
  = [EvNormalize boom None; EvLogger boom] /\
  trace (world_of (Attempt_try broken_normalizer (throws boom) no_options init))
  = [EvNormalize boom None].
Proof. intros broken_logger broken_normalizer boom. repeat split. Qed.

(** ** The repository's runtime tests, replayed on the model *)

Example test_sync_success :
  Attempt_try attempt (returns (VNum 42)) no_options init
  = (Normal (Attempt_ok (VNum 42)), advance init).
Proof. reflexivity. Qed.

Example test_async_error :
  result_of (Attempt_try careful_attempt
               (returns (VPromise (Abrupt (new_Error "test error"))))
               no_options init)
  = Normal (VPromise (Normal (Attempt_error
              (VObj [("error", new_Error "test error");
                     ("normalized",
                      VObj [("code", VStr "UNKNOWN_ERROR");
                            ("toClient",
                             VFun "() => ({ code })"
                               (Normal (VObj [("code", VStr "UNKNOWN_ERROR")])))])])))).
Proof. reflexivity. Qed.

Example test_retry_succeeds_on_third_call :
  let fn : Operation :=
    fun k => if Nat.ltb k 2 then Abrupt (new_Error "retry me")
             else Normal (VStr "success") in
  Attempt_retry attempt fn
    {| tries := Some 3; retry := None; try_options := no_options |} init
  = (Normal (VPromise (Normal (Attempt_ok (VStr "success")))),
     {| calls := 3; trace := [] |}).
Proof. reflexivity. Qed.

Example test_retry_with_zero_tries :
  calls (world_of (Attempt_retry attempt (throws (new_Error "fail"))
                     {| tries := Some 0; retry := None;
                        try_options := no_options |} init)) = 1.
Proof. reflexivity. Qed.

Example test_void_function :
  result_of (Attempt_try attempt (returns VUndefined) no_options init)
  = Normal (Attempt_ok VUndefined).
Proof. reflexivity. Qed.

Example test_client_keys :
  option_map (fun payload => keys (own_props payload))
    (match result_of (Attempt_try attempt (throws (new_Error "client mode error"))
                        {| report := None; client := Some true; errors := None |}
                        init) with
     | Normal o => get "error" (own_props o)
     | Abrupt _ => None
     end)
  = Some ["client"].
Proof. reflexivity. Qed.

Example test_json_success :
  JSON_roundtrip (Attempt_ok (VObj [("foo", VStr "bar"); ("num", VNum 42)]))
  = Normal (Some (VObj [("ok", VBool true);
                        ("data", VObj [("foo", VStr "bar"); ("num", VNum 42)])])).
Proof. reflexivity. Qed.

Example test_string_of_values :
  js_String (VArr [VNum 1; VNull; VArr [VNum (-2); VStr "x"]; VObj []])
  = Normal "1,,-2,x,[object Object]" /\
  js_String (VError "TypeError" "bad" []) = Normal "TypeError: bad".
Proof. split; reflexivity. Qed.
